(** * CryoTensor: the admin connection settings (Connections.svelte)

    A shallow embedding of the script block of
    [src/lib/components/admin/Settings/Connections.svelte]: the component
    state that holds the OpenAI-compatible and Ollama connection lists, the
    masking of API keys, and the add / update / delete / submit handlers.

    JavaScript strings are [string]s, arrays are [list]s read with stdpp's
    lookup, and the per-connection config objects (JS objects keyed by the
    array index) are [gmap]s. *)

From Stdlib Require Import Ascii String.
From stdpp Require Import base tactics option list strings gmap fin_maps.

Local Open Scope string_scope.
Local Open Scope list_scope.

(** ** JavaScript string primitives used by the component *)

Module JS.

(** The UTF-16 code units of a string, as a list. *)
Definition chars (s : string) : list ascii := list_ascii_of_string s.
Definition of_chars (l : list ascii) : string := string_of_list_ascii l.

(** [s.length] *)
Definition length (s : string) : nat := String.length s.

(** [s.slice(-k)] for [k > 0]: the start index [s.length - k] is clamped
    at [0], the end is the end of the string. *)
Definition slice_last (k : nat) (s : string) : string :=
  of_chars (drop (length s - k) (chars s)).

(** [c.repeat(n)] *)
Fixpoint repeat (c : string) (n : nat) : string :=
  match n with
  | O => ""
  | S n' => c +:+ repeat c n'
  end.

(** [s.replace(/\/$/, '')]: the pattern has no [m] flag, so [$] only
    matches at the end of the input; the single possible match is a
    slash that is the last code unit. *)
Fixpoint replace_trailing_slash (s : string) : string :=
  match s with
  | EmptyString => EmptyString
  | String c rest =>
      match rest with
      | EmptyString => if Ascii.eqb c "/"%char then EmptyString else s
      | String _ _ => String c (replace_trailing_slash rest)
      end
  end.

(** Truthiness of a string: [!s] holds exactly for the empty string. *)
Definition truthy (s : string) : bool := negb (String.eqb s "").

End JS.

(** ** Key descriptors and masking *)

(** [OpenAIKeyDescriptor]: [fingerprint] is [null] or a string. *)
Record OpenAIKeyDescriptor := {
  has_value : bool;
  masked : string;
  fingerprint : option string
}.

Definition defaultKeyDescriptor : OpenAIKeyDescriptor :=
  {| has_value := false; masked := ""; fingerprint := None |}.

(** [maskKeyForDisplay]; the default parameter turns a missing argument
    into the empty string, which the first line returns as it is. *)
Definition maskKeyForDisplay (key : string) : string :=
  if negb (JS.truthy key) then ""
  else
    let visible := JS.slice_last 4 key in
    let maskedLength := Nat.max (JS.length key - JS.length visible) 4 in
    JS.repeat "*" maskedLength +:+ visible.

(** ** Values the component exchanges *)

(** The values found in a per-connection config object. *)
Inductive JsVal :=
  | JUndefined
  | JNull
  | JBool (b : bool)
  | JStr (s : string).

(** A per-connection config object ([connection.config], an entry of
    [OPENAI_API_CONFIGS] or [OLLAMA_API_CONFIGS]). *)
Abbreviation Config := (gmap string JsVal).

(** [OPENAI_API_CONFIGS] and [OLLAMA_API_CONFIGS] are objects whose
    properties are the array indices. A property that holds [undefined]
    is modelled as an absent one: property reads and the JSON body of the
    update request make no difference between the two. *)
Abbreviation Configs := (gmap nat Config).

(** [obj[i] = v] where [v] may be [undefined]. *)
Definition obj_set (obj : Configs) (i : nat) (v : option Config) : Configs :=
  partial_alter (fun _ => v) i obj.

(** The object handed to [onSubmit] by the connection modals; every field
    but [url] may be missing. *)
Record Connection := {
  url : string;
  key : option string;
  hasStoredKey : option bool;
  keyChanged : option bool;
  config : option Config
}.

(** Truthiness of an optional boolean and of an optional string. *)
Definition truthy_bool (b : option bool) : bool := default false b.
Definition truthy_str (s : option string) : bool :=
  match s with
  | Some v => JS.truthy v
  | None => false
  end.

(** One entry of the [OPENAI_API_KEYS] field of the update request:
    [{ keep: true }] or [{ value: v }]. *)
Inductive KeyPayload :=
  | KeepKey
  | KeyValue (value : string).

(** The body passed to [updateOpenAIConfig]. *)
Record OpenAIUpdateRequest := {
  req_ENABLE_OPENAI_API : bool;
  req_OPENAI_API_BASE_URLS : list string;
  req_OPENAI_API_KEYS : list KeyPayload;
  req_OPENAI_API_CONFIGS : Configs
}.

(** The body passed to [updateOllamaConfig]. *)
Record OllamaUpdateRequest := {
  req_ENABLE_OLLAMA_API : bool;
  req_OLLAMA_BASE_URLS : list string;
  req_OLLAMA_API_CONFIGS : Configs
}.

Record KeySecurityMeta := {
  persistence_enabled : bool;
  encryption_enabled : bool
}.

(** [OPENAI_API_KEYS_METADATA] of a response: both flags may be missing. *)
Record KeySecurityMetaResponse := {
  res_persistence_enabled : option bool;
  res_encryption_enabled : option bool
}.

(** [OpenAIConfigResponse], as far as the handlers read it. *)
Record OpenAIConfigResponse := {
  res_OPENAI_API_BASE_URLS : list string;
  res_OPENAI_API_CONFIGS : Configs;
  res_OPENAI_API_KEYS : option (list (option OpenAIKeyDescriptor));
  res_OPENAI_API_KEYS_METADATA : option KeySecurityMetaResponse;
  res_OPENAI_ALLOWED_BASE_URLS : option (list string)
}.

(** ** Component state: the module-level [let] bindings *)

Record State := {
  OLLAMA_BASE_URLS : list string;
  OLLAMA_API_CONFIGS : Configs;
  OPENAI_API_KEYS : list string;
  OPENAI_API_KEY_KEEP : list bool;
  OPENAI_API_KEY_METADATA : list (option OpenAIKeyDescriptor);
  OPENAI_API_BASE_URLS : list string;
  OPENAI_API_CONFIGS : Configs;
  openAIKeySecurityMeta : KeySecurityMeta;
  allowedOpenAIBaseUrls : list string;
  ENABLE_OPENAI_API : option bool;
  ENABLE_OLLAMA_API : option bool
}.

(** The state the script block starts from. *)
Definition initialState : State := {|
  OLLAMA_BASE_URLS := [""];
  OLLAMA_API_CONFIGS := ∅;
  OPENAI_API_KEYS := [""];
  OPENAI_API_KEY_KEEP := [];
  OPENAI_API_KEY_METADATA := [];
  OPENAI_API_BASE_URLS := [""];
  OPENAI_API_CONFIGS := ∅;
  openAIKeySecurityMeta :=
    {| persistence_enabled := false; encryption_enabled := false |};
  allowedOpenAIBaseUrls := [];
  ENABLE_OPENAI_API := None;
  ENABLE_OLLAMA_API := None
|}.

(** Assignments to one binding. *)
Definition set_OLLAMA_BASE_URLS (v : list string) (st : State) : State :=
  {| OLLAMA_BASE_URLS := v;
     OLLAMA_API_CONFIGS := OLLAMA_API_CONFIGS st;
     OPENAI_API_KEYS := OPENAI_API_KEYS st;
     OPENAI_API_KEY_KEEP := OPENAI_API_KEY_KEEP st;
     OPENAI_API_KEY_METADATA := OPENAI_API_KEY_METADATA st;
     OPENAI_API_BASE_URLS := OPENAI_API_BASE_URLS st;
     OPENAI_API_CONFIGS := OPENAI_API_CONFIGS st;
     openAIKeySecurityMeta := openAIKeySecurityMeta st;
     allowedOpenAIBaseUrls := allowedOpenAIBaseUrls st;
     ENABLE_OPENAI_API := ENABLE_OPENAI_API st;
     ENABLE_OLLAMA_API := ENABLE_OLLAMA_API st |}.

Definition set_OLLAMA_API_CONFIGS (v : Configs) (st : State) : State :=
  {| OLLAMA_BASE_URLS := OLLAMA_BASE_URLS st;
     OLLAMA_API_CONFIGS := v;
     OPENAI_API_KEYS := OPENAI_API_KEYS st;
     OPENAI_API_KEY_KEEP := OPENAI_API_KEY_KEEP st;
     OPENAI_API_KEY_METADATA := OPENAI_API_KEY_METADATA st;
     OPENAI_API_BASE_URLS := OPENAI_API_BASE_URLS st;
     OPENAI_API_CONFIGS := OPENAI_API_CONFIGS st;
     openAIKeySecurityMeta := openAIKeySecurityMeta st;
     allowedOpenAIBaseUrls := allowedOpenAIBaseUrls st;
     ENABLE_OPENAI_API := ENABLE_OPENAI_API st;
     ENABLE_OLLAMA_API := ENABLE_OLLAMA_API st |}.

Definition set_OPENAI_API_KEYS (v : list string) (st : State) : State :=
  {| OLLAMA_BASE_URLS := OLLAMA_BASE_URLS st;
     OLLAMA_API_CONFIGS := OLLAMA_API_CONFIGS st;
     OPENAI_API_KEYS := v;
     OPENAI_API_KEY_KEEP := OPENAI_API_KEY_KEEP st;
     OPENAI_API_KEY_METADATA := OPENAI_API_KEY_METADATA st;
     OPENAI_API_BASE_URLS := OPENAI_API_BASE_URLS st;
     OPENAI_API_CONFIGS := OPENAI_API_CONFIGS st;
     openAIKeySecurityMeta := openAIKeySecurityMeta st;
     allowedOpenAIBaseUrls := allowedOpenAIBaseUrls st;
     ENABLE_OPENAI_API := ENABLE_OPENAI_API st;
     ENABLE_OLLAMA_API := ENABLE_OLLAMA_API st |}.

Definition set_OPENAI_API_KEY_KEEP (v : list bool) (st : State) : State :=
  {| OLLAMA_BASE_URLS := OLLAMA_BASE_URLS st;
     OLLAMA_API_CONFIGS := OLLAMA_API_CONFIGS st;
     OPENAI_API_KEYS := OPENAI_API_KEYS st;
     OPENAI_API_KEY_KEEP := v;
     OPENAI_API_KEY_METADATA := OPENAI_API_KEY_METADATA st;
     OPENAI_API_BASE_URLS := OPENAI_API_BASE_URLS st;
     OPENAI_API_CONFIGS := OPENAI_API_CONFIGS st;
     openAIKeySecurityMeta := openAIKeySecurityMeta st;
     allowedOpenAIBaseUrls := allowedOpenAIBaseUrls st;
     ENABLE_OPENAI_API := ENABLE_OPENAI_API st;
     ENABLE_OLLAMA_API := ENABLE_OLLAMA_API st |}.

Definition set_OPENAI_API_KEY_METADATA
    (v : list (option OpenAIKeyDescriptor)) (st : State) : State :=
  {| OLLAMA_BASE_URLS := OLLAMA_BASE_URLS st;
     OLLAMA_API_CONFIGS := OLLAMA_API_CONFIGS st;
     OPENAI_API_KEYS := OPENAI_API_KEYS st;
     OPENAI_API_KEY_KEEP := OPENAI_API_KEY_KEEP st;
     OPENAI_API_KEY_METADATA := v;
     OPENAI_API_BASE_URLS := OPENAI_API_BASE_URLS st;
     OPENAI_API_CONFIGS := OPENAI_API_CONFIGS st;
     openAIKeySecurityMeta := openAIKeySecurityMeta st;
     allowedOpenAIBaseUrls := allowedOpenAIBaseUrls st;
     ENABLE_OPENAI_API := ENABLE_OPENAI_API st;
     ENABLE_OLLAMA_API := ENABLE_OLLAMA_API st |}.

Definition set_OPENAI_API_BASE_URLS (v : list string) (st : State) : State :=
  {| OLLAMA_BASE_URLS := OLLAMA_BASE_URLS st;
     OLLAMA_API_CONFIGS := OLLAMA_API_CONFIGS st;
     OPENAI_API_KEYS := OPENAI_API_KEYS st;
     OPENAI_API_KEY_KEEP := OPENAI_API_KEY_KEEP st;
     OPENAI_API_KEY_METADATA := OPENAI_API_KEY_METADATA st;
     OPENAI_API_BASE_URLS := v;
     OPENAI_API_CONFIGS := OPENAI_API_CONFIGS st;
     openAIKeySecurityMeta := openAIKeySecurityMeta st;
     allowedOpenAIBaseUrls := allowedOpenAIBaseUrls st;
     ENABLE_OPENAI_API := ENABLE_OPENAI_API st;
     ENABLE_OLLAMA_API := ENABLE_OLLAMA_API st |}.

Definition set_OPENAI_API_CONFIGS (v : Configs) (st : State) : State :=
  {| OLLAMA_BASE_URLS := OLLAMA_BASE_URLS st;
     OLLAMA_API_CONFIGS := OLLAMA_API_CONFIGS st;
     OPENAI_API_KEYS := OPENAI_API_KEYS st;
     OPENAI_API_KEY_KEEP := OPENAI_API_KEY_KEEP st;
     OPENAI_API_KEY_METADATA := OPENAI_API_KEY_METADATA st;
     OPENAI_API_BASE_URLS := OPENAI_API_BASE_URLS st;
     OPENAI_API_CONFIGS := v;
     openAIKeySecurityMeta := openAIKeySecurityMeta st;
     allowedOpenAIBaseUrls := allowedOpenAIBaseUrls st;
     ENABLE_OPENAI_API := ENABLE_OPENAI_API st;
     ENABLE_OLLAMA_API := ENABLE_OLLAMA_API st |}.

Definition set_openAIKeySecurityMeta (v : KeySecurityMeta) (st : State) : State :=
  {| OLLAMA_BASE_URLS := OLLAMA_BASE_URLS st;
     OLLAMA_API_CONFIGS := OLLAMA_API_CONFIGS st;
     OPENAI_API_KEYS := OPENAI_API_KEYS st;
     OPENAI_API_KEY_KEEP := OPENAI_API_KEY_KEEP st;
     OPENAI_API_KEY_METADATA := OPENAI_API_KEY_METADATA st;
     OPENAI_API_BASE_URLS := OPENAI_API_BASE_URLS st;
     OPENAI_API_CONFIGS := OPENAI_API_CONFIGS st;
     openAIKeySecurityMeta := v;
     allowedOpenAIBaseUrls := allowedOpenAIBaseUrls st;
     ENABLE_OPENAI_API := ENABLE_OPENAI_API st;
     ENABLE_OLLAMA_API := ENABLE_OLLAMA_API st |}.

Definition set_allowedOpenAIBaseUrls (v : list string) (st : State) : State :=
  {| OLLAMA_BASE_URLS := OLLAMA_BASE_URLS st;
     OLLAMA_API_CONFIGS := OLLAMA_API_CONFIGS st;
     OPENAI_API_KEYS := OPENAI_API_KEYS st;
     OPENAI_API_KEY_KEEP := OPENAI_API_KEY_KEEP st;
     OPENAI_API_KEY_METADATA := OPENAI_API_KEY_METADATA st;
     OPENAI_API_BASE_URLS := OPENAI_API_BASE_URLS st;
     OPENAI_API_CONFIGS := OPENAI_API_CONFIGS st;
     openAIKeySecurityMeta := openAIKeySecurityMeta st;
     allowedOpenAIBaseUrls := v;
     ENABLE_OPENAI_API := ENABLE_OPENAI_API st;
     ENABLE_OLLAMA_API := ENABLE_OLLAMA_API st |}.

(** ** JavaScript array primitives used by the handlers *)

(** [arr.filter((x, i) => p(i, x))], the callback seeing the index. *)
Fixpoint filter_from {A} (p : nat -> A -> bool) (start : nat) (arr : list A) : list A :=
  match arr with
  | [] => []
  | x :: rest =>
      if p start x then x :: filter_from p (S start) rest
      else filter_from p (S start) rest
  end.

Definition array_filter {A} (p : nat -> A -> bool) (arr : list A) : list A :=
  filter_from p 0 arr.

(** [arr[i] = v]. Inside the array this replaces the element; at or past
    the end JavaScript grows the array, the skipped slots being holes. A
    hole reads as [undefined]; [hole] is the value that the readers of the
    array at hand make of [undefined], and the model stores it as an
    ordinary entry. The two differ for [map] and [filter], which skip
    holes, and only on a sibling list shorter than the row index; the
    lists are as long as the base URLs after [onMount] and after every
    handler. *)
Definition array_set {A} (hole : A) (arr : list A) (i : nat) (v : A) : list A :=
  if decide (i < length arr) then <[i := v]> arr
  else arr ++ replicate (i - length arr) hole ++ [v].

(** ** [ensureOpenAIArrayLengths] *)

(** The first two blocks: cut with [slice(0, n)] or pad with
    [Array(n - length).fill(filler)]. *)
Definition fit_length {A} (filler : A) (n : nat) (arr : list A) : list A :=
  if decide (n < length arr) then take n arr
  else if decide (length arr < n) then arr ++ replicate (n - length arr) filler
  else arr.

(** [item ?? defaultKeyDescriptor()] *)
Definition or_default (item : option OpenAIKeyDescriptor) : option OpenAIKeyDescriptor :=
  Some (default defaultKeyDescriptor item).

(** The third block: only the last two branches replace nullish items. *)
Definition fit_metadata (n : nat) (arr : list (option OpenAIKeyDescriptor))
    : list (option OpenAIKeyDescriptor) :=
  if decide (n < length arr) then take n arr
  else if decide (length arr < n) then
    or_default <$> (arr ++ replicate (n - length arr) None)
  else or_default <$> arr.

Definition ensureOpenAIArrayLengths (st : State) : State :=
  let n := length (OPENAI_API_BASE_URLS st) in
  let st1 := set_OPENAI_API_KEYS (fit_length "" n (OPENAI_API_KEYS st)) st in
  let st2 := set_OPENAI_API_KEY_KEEP (fit_length false n (OPENAI_API_KEY_KEEP st1)) st1 in
  set_OPENAI_API_KEY_METADATA (fit_metadata n (OPENAI_API_KEY_METADATA st2)) st2.

(** ** [updateOpenAIHandler] *)

(** The callback of [keyPayloads]. *)
Definition keyPayload (st : State) (idx : nat) : KeyPayload :=
  if truthy_bool (OPENAI_API_KEY_KEEP st !! idx) then KeepKey
  else KeyValue (default "" (OPENAI_API_KEYS st !! idx)).

Definition keyPayloads (st : State) : list KeyPayload :=
  imap (fun idx _ => keyPayload st idx) (OPENAI_API_BASE_URLS st).

(** The handler up to its [await]: the new state and the request sent, if
    any. Nothing happens while [ENABLE_OPENAI_API] is [null]. *)
Definition updateOpenAIHandler (st : State) : State * option OpenAIUpdateRequest :=
  match ENABLE_OPENAI_API st with
  | None => (st, None)
  | Some enable =>
      let st1 :=
        set_OPENAI_API_BASE_URLS
          (JS.replace_trailing_slash <$> OPENAI_API_BASE_URLS st) st in
      let st2 := ensureOpenAIArrayLengths st1 in
      (st2, Some {| req_ENABLE_OPENAI_API := enable;
                    req_OPENAI_API_BASE_URLS := OPENAI_API_BASE_URLS st2;
                    req_OPENAI_API_KEYS := keyPayloads st2;
                    req_OPENAI_API_CONFIGS := OPENAI_API_CONFIGS st2 |})
  end.

(** [item?.has_value ?? false] *)
Definition has_value_or_false (item : option OpenAIKeyDescriptor) : bool :=
  default false (has_value <$> item).

(** The handler after its [await]: [res] is the response, or [undefined]
    when the request failed and the [catch] reported the error. *)
Definition updateOpenAIHandler_resume (res : option OpenAIConfigResponse) (st : State) : State :=
  match res with
  | None => st
  | Some r =>
      let st1 := set_OPENAI_API_BASE_URLS (res_OPENAI_API_BASE_URLS r) st in
      let st2 := set_OPENAI_API_CONFIGS (res_OPENAI_API_CONFIGS r) st1 in
      let st3 := set_OPENAI_API_KEY_METADATA (default [] (res_OPENAI_API_KEYS r)) st2 in
      let st4 := set_OPENAI_API_KEYS ((fun _ => "") <$> OPENAI_API_BASE_URLS st3) st3 in
      let st5 :=
        set_OPENAI_API_KEY_KEEP
          (has_value_or_false <$> OPENAI_API_KEY_METADATA st4) st4 in
      let meta := res_OPENAI_API_KEYS_METADATA r in
      let st6 :=
        set_openAIKeySecurityMeta
          {| persistence_enabled := default false (meta ≫= res_persistence_enabled);
             encryption_enabled := default false (meta ≫= res_encryption_enabled) |}
          st5 in
      let st7 :=
        set_allowedOpenAIBaseUrls
          (default (allowedOpenAIBaseUrls st6) (res_OPENAI_ALLOWED_BASE_URLS r)) st6 in
      ensureOpenAIArrayLengths st7
  end.

(** ** [updateOllamaHandler] *)

Definition updateOllamaHandler (st : State) : State * option OllamaUpdateRequest :=
  match ENABLE_OLLAMA_API st with
  | None => (st, None)
  | Some enable =>
      let st1 :=
        set_OLLAMA_BASE_URLS (JS.replace_trailing_slash <$> OLLAMA_BASE_URLS st) st in
      (st1, Some {| req_ENABLE_OLLAMA_API := enable;
                    req_OLLAMA_BASE_URLS := OLLAMA_BASE_URLS st1;
                    req_OLLAMA_API_CONFIGS := OLLAMA_API_CONFIGS st1 |})
  end.

(** ** Adding a connection *)

(** The descriptor shown for a key typed in the modal. *)
Definition typedKeyDescriptor (k : option string) : OpenAIKeyDescriptor :=
  if truthy_str k then
    {| masked := maskKeyForDisplay (default "" k);
       has_value := true;
       fingerprint := None |}
  else defaultKeyDescriptor.

Definition addOpenAIConnectionHandler (connection : Connection) (st : State)
    : State * option OpenAIUpdateRequest :=
  let st1 := set_OPENAI_API_BASE_URLS (OPENAI_API_BASE_URLS st ++ [url connection]) st in
  let st2 := set_OPENAI_API_KEYS (OPENAI_API_KEYS st1 ++ [default "" (key connection)]) st1 in
  let st3 :=
    set_OPENAI_API_KEY_KEEP
      (OPENAI_API_KEY_KEEP st2 ++
         [truthy_bool (hasStoredKey connection) && negb (truthy_bool (keyChanged connection))])
      st2 in
  let st4 :=
    set_OPENAI_API_KEY_METADATA
      (OPENAI_API_KEY_METADATA st3 ++ [Some (typedKeyDescriptor (key connection))]) st3 in
  let st5 :=
    set_OPENAI_API_CONFIGS
      (obj_set (OPENAI_API_CONFIGS st4) (length (OPENAI_API_BASE_URLS st4) - 1)
         (config connection))
      st4 in
  updateOpenAIHandler (ensureOpenAIArrayLengths st5).

(** [key: connection.key] inside an object literal. *)
Definition key_property (k : option string) : JsVal :=
  match k with
  | Some v => JStr v
  | None => JUndefined
  end.

(** [{ ...connection.config, key: connection.key }] *)
Definition ollamaConfigWithKey (connection : Connection) : Config :=
  <["key" := key_property (key connection)]> (default ∅ (config connection)).

Definition addOllamaConnectionHandler (connection : Connection) (st : State)
    : State * option OllamaUpdateRequest :=
  let st1 := set_OLLAMA_BASE_URLS (OLLAMA_BASE_URLS st ++ [url connection]) st in
  let st2 :=
    set_OLLAMA_API_CONFIGS
      (obj_set (OLLAMA_API_CONFIGS st1) (length (OLLAMA_BASE_URLS st1) - 1)
         (Some (ollamaConfigWithKey connection)))
      st1 in
  updateOllamaHandler st2.

(** ** The per-connection handlers of the [#each] blocks *)

(** [onSubmit] of the [OpenAIConnection] at [idx]. The block
    [{#each OPENAI_API_BASE_URLS as url, idx}] creates this closure for the
    indices of [OPENAI_API_BASE_URLS] only, hence [None] elsewhere. The
    three sibling arrays are written with [array_set]; a hole in them
    reads like [''], [false] and a nullish descriptor. *)
Definition onSubmit_OpenAIConnection (idx : nat) (connection : Connection) (st : State)
    : option (State * option OpenAIUpdateRequest) :=
  if decide (idx < length (OPENAI_API_BASE_URLS st)) then
    let st1 :=
      set_OPENAI_API_BASE_URLS (<[idx := url connection]> (OPENAI_API_BASE_URLS st)) st in
    let st2 :=
      set_OPENAI_API_CONFIGS (obj_set (OPENAI_API_CONFIGS st1) idx (config connection)) st1 in
    let st3 :=
      if truthy_bool (keyChanged connection) then
        let s1 :=
          set_OPENAI_API_KEYS
            (array_set "" (OPENAI_API_KEYS st2) idx (default "" (key connection))) st2 in
        let s2 :=
          set_OPENAI_API_KEY_KEEP (array_set false (OPENAI_API_KEY_KEEP s1) idx false) s1 in
        set_OPENAI_API_KEY_METADATA
          (array_set None (OPENAI_API_KEY_METADATA s2) idx
             (Some (typedKeyDescriptor (key connection))))
          s2
      else
        let s1 := set_OPENAI_API_KEYS (array_set "" (OPENAI_API_KEYS st2) idx "") st2 in
        let s2 :=
          set_OPENAI_API_KEY_KEEP
            (array_set false (OPENAI_API_KEY_KEEP s1) idx
               (default false (hasStoredKey connection)))
            s1 in
        let old := default defaultKeyDescriptor (mjoin (OPENAI_API_KEY_METADATA s2 !! idx)) in
        set_OPENAI_API_KEY_METADATA
          (array_set None (OPENAI_API_KEY_METADATA s2) idx
             (Some {| has_value := default false (hasStoredKey connection);
                      masked := masked old;
                      fingerprint := fingerprint old |}))
          s2
    in
    Some (updateOpenAIHandler (ensureOpenAIArrayLengths st3))
  else None.

(** The predicate of the four [filter] calls of [onDelete]. *)
Definition not_index {A} (idx : nat) : nat -> A -> bool :=
  fun i _ => negb (Nat.eqb idx i).

(** The [forEach] that fills [newConfig]: one assignment per index of the
    filtered URL list. *)
Definition shifted_index (idx newIdx : nat) : nat :=
  if decide (newIdx < idx) then newIdx else newIdx + 1.

Definition reindexConfigs (idx : nat) (urls : list string) (old : Configs) : Configs :=
  foldl (fun newConfig newIdx => obj_set newConfig newIdx (old !! shifted_index idx newIdx))
        ∅ (seq 0 (length urls)).

(** [onDelete] of the [OpenAIConnection] at [idx], up to the call of
    [ensureOpenAIArrayLengths]. *)
Definition deleteOpenAIConnection (idx : nat) (st : State) : State :=
  let st1 :=
    set_OPENAI_API_BASE_URLS (array_filter (not_index idx) (OPENAI_API_BASE_URLS st)) st in
  let st2 := set_OPENAI_API_KEYS (array_filter (not_index idx) (OPENAI_API_KEYS st1)) st1 in
  let st3 :=
    set_OPENAI_API_KEY_KEEP (array_filter (not_index idx) (OPENAI_API_KEY_KEEP st2)) st2 in
  let st4 :=
    set_OPENAI_API_KEY_METADATA
      (array_filter (not_index idx) (OPENAI_API_KEY_METADATA st3)) st3 in
  let st5 :=
    set_OPENAI_API_CONFIGS
      (reindexConfigs idx (OPENAI_API_BASE_URLS st4) (OPENAI_API_CONFIGS st4)) st4 in
  ensureOpenAIArrayLengths st5.

(** The whole [onDelete]: it ends by calling [updateOpenAIHandler]. *)
Definition onDelete_OpenAIConnection (idx : nat) (st : State)
    : State * option OpenAIUpdateRequest :=
  updateOpenAIHandler (deleteOpenAIConnection idx st).

(** [onDelete] of the [OllamaConnection] at [idx]; it sends nothing. *)
Definition onDelete_OllamaConnection (idx : nat) (st : State) : State :=
  let st1 :=
    set_OLLAMA_BASE_URLS (array_filter (not_index idx) (OLLAMA_BASE_URLS st)) st in
  set_OLLAMA_API_CONFIGS
    (reindexConfigs idx (OLLAMA_BASE_URLS st1) (OLLAMA_API_CONFIGS st1)) st1.

(** ** Sequences of operations on the OpenAI connection lists *)

Inductive Operation :=
  | Add (connection : Connection)
  | Update (idx : nat) (connection : Connection)
  | Delete (idx : nat)
  | Save
  | Response (res : option OpenAIConfigResponse).

(** One operation; [None] when the [#each] block has no handler for the
    index. *)
Definition perform (op : Operation) (st : State) : option State :=
  match op with
  | Add connection => Some (fst (addOpenAIConnectionHandler connection st))
  | Update idx connection => fst <$> onSubmit_OpenAIConnection idx connection st
  | Delete idx => Some (fst (onDelete_OpenAIConnection idx st))
  | Save => Some (fst (updateOpenAIHandler st))
  | Response res => Some (updateOpenAIHandler_resume res st)
  end.

(** The states reached after each operation of a sequence. *)
Fixpoint run (st : State) (ops : list Operation) : option (list State) :=
  match ops with
  | [] => Some []
  | op :: rest =>
      st' ← perform op st;
      sts ← run st' rest;
      Some (st' :: sts)
  end.

(** Invariant I1 on the OpenAI lists. *)
Definition aligned (st : State) : Prop :=
  length (OPENAI_API_KEYS st) = length (OPENAI_API_BASE_URLS st) ∧
  length (OPENAI_API_KEY_KEEP st) = length (OPENAI_API_BASE_URLS st) ∧
  length (OPENAI_API_KEY_METADATA st) = length (OPENAI_API_BASE_URLS st).

Global Instance aligned_dec (st : State) : Decision (aligned st).
Proof. unfold aligned. apply _. Defined.

(** The payload entry sent for index [idx] when the handler runs in [st]. *)
Definition sentKeyPayload (st : State) (idx : nat) : option KeyPayload :=
  req ← snd (updateOpenAIHandler st);
  req_OPENAI_API_KEYS req !! idx.

(** A config object carries the key [k] when one of its fields holds it. *)
Definition carries_key (c : Config) (k : string) : Prop :=
  ∃ field, c !! field = Some (JStr k).

(** ** The allow-list check *)

Inductive ServiceError :=
  | UrlNotAllowed.

(** Modelled from the spec: the check of a base URL against the allow-list,
    made by [AddConnectionModal] (which receives [allowedUrls]) and by the
    admin API behind [updateOpenAIConfig]; neither is among the sources.
    The spec: the base URL is normalized (trailing slash stripped), then
    any URL not present in the allow-list is rejected with [UrlNotAllowed]
    when the allow-list is non-empty. *)
Definition validateBaseUrl (allowed : list string) (baseUrl : string)
    : ServiceError + string :=
  let normalized := JS.replace_trailing_slash baseUrl in
  match allowed with
  | [] => inr normalized
  | _ :: _ => if decide (normalized ∈ allowed) then inr normalized else inl UrlNotAllowed
  end.

(** Modelled from the spec: [addConnection], the modal's submit path. The
    URL is validated against [allowedOpenAIBaseUrls]; only then the
    connection reaches [addOpenAIConnectionHandler]. *)
Definition addConnection (connection : Connection) (st : State)
    : ServiceError + (State * option OpenAIUpdateRequest) :=
  match validateBaseUrl (allowedOpenAIBaseUrls st) (url connection) with
  | inl e => inl e
  | inr normalized =>
      inr (addOpenAIConnectionHandler
             {| url := normalized;
                key := key connection;
                hasStoredKey := hasStoredKey connection;
                keyChanged := keyChanged connection;
                config := config connection |} st)
  end.

(** Modelled from the spec: the URL part of [upsertConnections]: every
    edit's base URL is validated, the first rejection fails the whole
    request before any mutation. *)
Fixpoint upsertBaseUrls (allowed : list string) (baseUrls : list string)
    : ServiceError + list string :=
  match baseUrls with
  | [] => inr []
  | baseUrl :: rest =>
      match validateBaseUrl allowed baseUrl with
      | inl e => inl e
      | inr normalized =>
          match upsertBaseUrls allowed rest with
          | inl e => inl e
          | inr done => inr (normalized :: done)
          end
      end
  end.

(** The operations that end in [ensureOpenAIArrayLengths] whatever the
    state: the three handlers and a response that arrived. [Save] does
    nothing while [ENABLE_OPENAI_API] is [null], and neither does the
    continuation after a failed request. *)
Definition realigns (op : Operation) : bool :=
  match op with
  | Add _ | Update _ _ | Delete _ | Response (Some _) => true
  | Save | Response None => false
  end.

(** An edit is conflicting when its keep-flag is set while its key input
    holds a non-empty value. *)
Definition conflictingEdit (st : State) (idx : nat) : Prop :=
  OPENAI_API_KEY_KEEP st !! idx = Some true ∧
  ∃ typed, OPENAI_API_KEYS st !! idx = Some typed ∧ typed ≠ "".

(** The form in which [updateOpenAIHandler] leaves a base URL: stripped of
    its trailing slash, unless [ENABLE_OPENAI_API] is [null] and the
    handler does nothing. *)
Definition submittedUrl (st : State) (baseUrl : string) : string :=
  match ENABLE_OPENAI_API st with
  | Some _ => JS.replace_trailing_slash baseUrl
  | None => baseUrl
  end.

(** [new] is [old], a list of length [n], without its entry [idx]: one
    shorter, the entries before [idx] in place and the later ones one
    index down, each seen through [f]. *)
Definition shifted_down {A} (idx n : nat) (f : A -> A) (old new : list A) : Prop :=
  length new = n - 1 ∧
  ∀ j, j < n - 1 -> new !! j = f <$> old !! shifted_index idx j.

(** The same for a config object keyed by the index. *)
Definition configs_shifted_down (idx n : nat) (old new : Configs) : Prop :=
  (∀ j, j < n - 1 -> new !! j = old !! shifted_index idx j) ∧
  (∀ j, n - 1 <= j -> new !! j = None).

(** ** Sample values *)

Definition exampleConnection : Connection := {|
  url := "https://api.openai.com/v1/";
  key := Some "sk-1234567890";
  hasStoredKey := None;
  keyChanged := Some true;
  config := Some {["enable" := JBool true]}
|}.

(** One stored connection whose keep-flag is set, with a new key typed in
    its input field. *)
Definition exampleState : State := {|
  OLLAMA_BASE_URLS := ["http://localhost:11434"];
  OLLAMA_API_CONFIGS := ∅;
  OPENAI_API_KEYS := ["sk-new"];
  OPENAI_API_KEY_KEEP := [true];
  OPENAI_API_KEY_METADATA :=
    [Some {| has_value := true; masked := "****7890"; fingerprint := None |}];
  OPENAI_API_BASE_URLS := ["https://api.openai.com/v1"];
  OPENAI_API_CONFIGS := ∅;
  openAIKeySecurityMeta :=
    {| persistence_enabled := false; encryption_enabled := false |};
  allowedOpenAIBaseUrls := ["https://api.openai.com/v1"];
  ENABLE_OPENAI_API := Some true;
  ENABLE_OLLAMA_API := Some true
|}.

Definition exampleResponse : OpenAIConfigResponse := {|
  res_OPENAI_API_BASE_URLS := ["https://api.openai.com/v1"; "https://example.org/v1"];
  res_OPENAI_API_CONFIGS := ∅;
  res_OPENAI_API_KEYS :=
    Some [Some {| has_value := true; masked := "****7890"; fingerprint := None |}];
  res_OPENAI_API_KEYS_METADATA := None;
  res_OPENAI_ALLOWED_BASE_URLS := None
|}.

(** A connection object that names a stored key to keep and carries a
    typed key as well. *)
Definition conflictingConnection : Connection := {|
  url := "https://api.openai.com/v1";
  key := Some "sk-new";
  hasStoredKey := Some true;
  keyChanged := Some false;
  config := None
|}.

(** Three stored connections, each with its config object. *)
Definition exampleThree : State := {|
  OLLAMA_BASE_URLS := ["http://localhost:11434"; "http://gpu-box:11434/"];
  OLLAMA_API_CONFIGS :=
    {[0 := {["enable" := JBool true]}; 1 := {["enable" := JBool false]}]};
  OPENAI_API_KEYS := [""; "sk-typed"; ""];
  OPENAI_API_KEY_KEEP := [true; false; true];
  OPENAI_API_KEY_METADATA :=
    [Some {| has_value := true; masked := "****aaaa"; fingerprint := None |};
     None;
     Some {| has_value := true; masked := "****cccc"; fingerprint := None |}];
  OPENAI_API_BASE_URLS := ["https://a.example/v1"; "https://b.example/v1"; "https://c.example/v1/"];
  OPENAI_API_CONFIGS :=
    {[0 := {["prefix_id" := JStr "a"]}; 1 := {["prefix_id" := JStr "b"]};
      2 := {["prefix_id" := JStr "c"]}]};
  openAIKeySecurityMeta :=
    {| persistence_enabled := false; encryption_enabled := false |};
  allowedOpenAIBaseUrls := [];
  ENABLE_OPENAI_API := Some true;
  ENABLE_OLLAMA_API := Some true
|}.

(** ** What the masked display shows *)

(** The display of [key] is a run of at least four stars followed by the
    last four code units of [key] (all of them when there are fewer), and
    it is the same for every key with these last code units and as many
    before them. *)
Definition masks_all_but_last_four (key : string) : Prop :=
  ∃ hidden visible,
    key = hidden +:+ visible ∧
    visible = JS.slice_last 4 key ∧
    JS.length visible = Nat.min 4 (JS.length key) ∧
    maskKeyForDisplay key = JS.repeat "*" (Nat.max (JS.length hidden) 4) +:+ visible ∧
    4 <= Nat.max (JS.length hidden) 4 ∧
    ∀ other,
      JS.length other = JS.length hidden ->
      maskKeyForDisplay (other +:+ visible) = maskKeyForDisplay key.

(** ** What a row of the [#each] block is given *)

(** [maskedKey={OPENAI_API_KEY_METADATA[idx]?.masked ?? ''}] *)
Definition maskedKeyProp (st : State) (idx : nat) : string :=
  default "" (masked <$> mjoin (OPENAI_API_KEY_METADATA st !! idx)).

(** [hasStoredKey={OPENAI_API_KEY_KEEP[idx]}], [undefined] past the end. *)
Definition hasStoredKeyProp (st : State) (idx : nat) : option bool :=
  OPENAI_API_KEY_KEEP st !! idx.

(** [bind:keyValue={OPENAI_API_KEYS[idx]}], as read by the row. *)
Definition keyValueProp (st : State) (idx : nat) : option string :=
  OPENAI_API_KEYS st !! idx.

(** ** [submitHandler] *)

(** The form's submit: both update handlers run up to their [await], one
    after the other. The ['save'] event and the refresh of the backend
    config that follow do not touch the bindings. *)
Definition submitHandler (st : State)
    : State * option OpenAIUpdateRequest * option OllamaUpdateRequest :=
  let openai := updateOpenAIHandler st in
  let ollama := updateOllamaHandler (fst openai) in
  (fst ollama, snd openai, snd ollama).

(** ** [onMount] *)

Definition set_ENABLE_OPENAI_API (v : option bool) (st : State) : State :=
  {| OLLAMA_BASE_URLS := OLLAMA_BASE_URLS st;
     OLLAMA_API_CONFIGS := OLLAMA_API_CONFIGS st;
     OPENAI_API_KEYS := OPENAI_API_KEYS st;
     OPENAI_API_KEY_KEEP := OPENAI_API_KEY_KEEP st;
     OPENAI_API_KEY_METADATA := OPENAI_API_KEY_METADATA st;
     OPENAI_API_BASE_URLS := OPENAI_API_BASE_URLS st;
     OPENAI_API_CONFIGS := OPENAI_API_CONFIGS st;
     openAIKeySecurityMeta := openAIKeySecurityMeta st;
     allowedOpenAIBaseUrls := allowedOpenAIBaseUrls st;
     ENABLE_OPENAI_API := v;
     ENABLE_OLLAMA_API := ENABLE_OLLAMA_API st |}.

Definition set_ENABLE_OLLAMA_API (v : option bool) (st : State) : State :=
  {| OLLAMA_BASE_URLS := OLLAMA_BASE_URLS st;
     OLLAMA_API_CONFIGS := OLLAMA_API_CONFIGS st;
     OPENAI_API_KEYS := OPENAI_API_KEYS st;
     OPENAI_API_KEY_KEEP := OPENAI_API_KEY_KEEP st;
     OPENAI_API_KEY_METADATA := OPENAI_API_KEY_METADATA st;
     OPENAI_API_BASE_URLS := OPENAI_API_BASE_URLS st;
     OPENAI_API_CONFIGS := OPENAI_API_CONFIGS st;
     openAIKeySecurityMeta := openAIKeySecurityMeta st;
     allowedOpenAIBaseUrls := allowedOpenAIBaseUrls st;
     ENABLE_OPENAI_API := ENABLE_OPENAI_API st;
     ENABLE_OLLAMA_API := v |}.

(** The value of a run of decimal digits, read after [acc]. *)
Fixpoint digits_value (acc : nat) (s : string) : option nat :=
  match s with
  | EmptyString => Some acc
  | String c rest =>
      match Ascii.is_nat c with
      | Some d => digits_value (10 * acc + d) rest
      | None => None
      end
  end.

(** A property name is the name of index [i] when it is the decimal
    numeral of [i], which has no leading zero. *)
Definition index_of_name (name : string) : option nat :=
  match name with
  | EmptyString => None
  | String c rest =>
      if Ascii.eqb c "0"%char then
        match rest with
        | EmptyString => Some 0
        | String _ _ => None
        end
      else digits_value 0 name
  end.

(** [configs[name]] on a config object as the server sends it. The
    properties named by an index are the [Configs] kept in the state; the
    legacy ones, named by a base URL, are only read here. *)
Definition config_named (configs : Configs) (named : gmap string Config) (name : string)
    : option Config :=
  match index_of_name name with
  | Some i => configs !! i
  | None => named !! name
  end.

(** One turn of the legacy loop:
    [if (!configs[idx]) configs[idx] = configs[url] || {}]; a config
    object that is there is truthy. *)
Definition legacyConfigStep (named : gmap string Config) (configs : Configs)
    (entry : nat * string) : Configs :=
  match configs !! entry.1 with
  | Some _ => configs
  | None => <[entry.1 := default ∅ (config_named configs named entry.2)]> configs
  end.

(** [for (const [idx, url] of urls.entries()) ...] *)
Definition legacyConfigs (named : gmap string Config) (urls : list string)
    (configs : Configs) : Configs :=
  foldl (legacyConfigStep named) configs (imap pair urls).

(** [openaiConfig]: the fields of the response that the update handler
    reads as well, the switch, and the legacy properties of
    [OPENAI_API_CONFIGS]. *)
Record LoadedOpenAIConfig := {
  loaded_openai : OpenAIConfigResponse;
  loaded_ENABLE_OPENAI_API : bool;
  loaded_OPENAI_named_configs : gmap string Config
}.

(** [ollamaConfig] *)
Record LoadedOllamaConfig := {
  loaded_ENABLE_OLLAMA_API : bool;
  loaded_OLLAMA_BASE_URLS : list string;
  loaded_OLLAMA_API_CONFIGS : Configs;
  loaded_OLLAMA_named_configs : gmap string Config
}.

(** [onMount] once the three configs have arrived, [isAdmin] being
    [$user?.role === 'admin']. The probes of [getOpenAIModels] that fill
    [pipelineUrls] and the [connectionsConfig] binding are outside the
    state modelled here. *)
Definition onMount (isAdmin : bool) (openaiConfig : LoadedOpenAIConfig)
    (ollamaConfig : LoadedOllamaConfig) (st : State) : State :=
  if isAdmin then
    let r := loaded_openai openaiConfig in
    let st1 := set_ENABLE_OPENAI_API (Some (loaded_ENABLE_OPENAI_API openaiConfig)) st in
    let st2 := set_ENABLE_OLLAMA_API (Some (loaded_ENABLE_OLLAMA_API ollamaConfig)) st1 in
    let st3 := set_OPENAI_API_BASE_URLS (res_OPENAI_API_BASE_URLS r) st2 in
    let st4 :=
      set_OPENAI_API_KEY_METADATA (or_default <$> default [] (res_OPENAI_API_KEYS r)) st3 in
    let st5 := set_OPENAI_API_KEYS ((fun _ => "") <$> OPENAI_API_BASE_URLS st4) st4 in
    let st6 :=
      set_OPENAI_API_KEY_KEEP
        (imap (fun idx _ => has_value_or_false (mjoin (OPENAI_API_KEY_METADATA st5 !! idx)))
           (OPENAI_API_BASE_URLS st5))
        st5 in
    let st7 := set_OPENAI_API_CONFIGS (res_OPENAI_API_CONFIGS r) st6 in
    let meta := res_OPENAI_API_KEYS_METADATA r in
    let st8 :=
      set_openAIKeySecurityMeta
        {| persistence_enabled := default false (meta ≫= res_persistence_enabled);
           encryption_enabled := default false (meta ≫= res_encryption_enabled) |}
        st7 in
    let st9 :=
      set_allowedOpenAIBaseUrls (default [] (res_OPENAI_ALLOWED_BASE_URLS r)) st8 in
    let st10 := ensureOpenAIArrayLengths st9 in
    let st11 := set_OLLAMA_BASE_URLS (loaded_OLLAMA_BASE_URLS ollamaConfig) st10 in
    let st12 := set_OLLAMA_API_CONFIGS (loaded_OLLAMA_API_CONFIGS ollamaConfig) st11 in
    let st13 :=
      if truthy_bool (ENABLE_OPENAI_API st12) then
        set_OPENAI_API_CONFIGS
          (legacyConfigs (loaded_OPENAI_named_configs openaiConfig)
             (OPENAI_API_BASE_URLS st12) (OPENAI_API_CONFIGS st12))
          st12
      else st12 in
    if truthy_bool (ENABLE_OLLAMA_API st13) then
      set_OLLAMA_API_CONFIGS
        (legacyConfigs (loaded_OLLAMA_named_configs ollamaConfig)
           (OLLAMA_BASE_URLS st13) (OLLAMA_API_CONFIGS st13))
        st13
    else st13
  else st.

(** ** More sample values *)

Definition exampleLoadedOpenAI : LoadedOpenAIConfig := {|
  loaded_openai := {|
    res_OPENAI_API_BASE_URLS := ["https://api.openai.com/v1"; "https://example.org/v1"];
    res_OPENAI_API_CONFIGS := {[0 := {["enable" := JBool true]}]};
    res_OPENAI_API_KEYS :=
      Some [Some {| has_value := true; masked := "****7890"; fingerprint := None |}; None];
    res_OPENAI_API_KEYS_METADATA := None;
    res_OPENAI_ALLOWED_BASE_URLS := None
  |};
  loaded_ENABLE_OPENAI_API := true;
  loaded_OPENAI_named_configs :=
    {["https://example.org/v1" := {["prefix_id" := JStr "legacy"]}]}
|}.

Definition exampleLoadedOllama : LoadedOllamaConfig := {|
  loaded_ENABLE_OLLAMA_API := true;
  loaded_OLLAMA_BASE_URLS := ["http://localhost:11434"];
  loaded_OLLAMA_API_CONFIGS := ∅;
  loaded_OLLAMA_named_configs := ∅
|}.

(** * Properties *)

(** ** Strings *)

Section js_strings.

Implicit Types s a b : string.

Lemma chars_append a b : JS.chars (a +:+ b) = JS.chars a ++ JS.chars b.
Proof. induction a as [|c a IH]; simpl; [done | by rewrite <- IH]. Qed.

Lemma length_chars s : length (JS.chars s) = JS.length s.
Proof. induction s as [|c s IH]; simpl; [done | by rewrite IH]. Qed.

Lemma of_chars_chars s : JS.of_chars (JS.chars s) = s.
Proof. apply string_of_list_ascii_of_string. Qed.

Lemma chars_of_chars l : JS.chars (JS.of_chars l) = l.
Proof. apply list_ascii_of_string_of_list_ascii. Qed.

Lemma length_append a b : JS.length (a +:+ b) = JS.length a + JS.length b.
Proof. by rewrite <- !length_chars, chars_append, length_app. Qed.

Lemma length_repeat_star n : JS.length (JS.repeat "*" n) = n.
Proof. induction n as [|n IH]; simpl; [done | by f_equal]. Qed.

Lemma length_zero s : JS.length s = 0 -> s = "".
Proof. by destruct s. Qed.

Lemma truthy_true s : s ≠ "" -> JS.truthy s = true.
Proof. by destruct s. Qed.

Lemma slice_last_append a b : JS.slice_last (JS.length b) (a +:+ b) = b.
Proof.
  unfold JS.slice_last. rewrite length_append, chars_append.
  replace (JS.length a + JS.length b - JS.length b) with (length (JS.chars a))
    by (rewrite length_chars; lia).
  by rewrite drop_app_length, of_chars_chars.
Qed.

Lemma slice_last_short k s : JS.length s <= k -> JS.slice_last k s = s.
Proof.
  intros Hk. unfold JS.slice_last.
  replace (JS.length s - k) with 0 by lia.
  by rewrite drop_0, of_chars_chars.
Qed.

(** A string of at least [k] code units splits before its last [k]. *)
Lemma split_last k s :
  k <= JS.length s ->
  ∃ a, s = a +:+ JS.slice_last k s ∧ JS.length (JS.slice_last k s) = k.
Proof.
  intros Hk. exists (JS.of_chars (take (JS.length s - k) (JS.chars s))). split.
  - rewrite <- (of_chars_chars (_ +:+ _)), chars_append. unfold JS.slice_last.
    rewrite !chars_of_chars, take_drop. symmetry. apply of_chars_chars.
  - unfold JS.slice_last.
    rewrite <- length_chars, chars_of_chars, length_drop, length_chars. lia.
Qed.

Lemma replace_trailing_slash_append s : JS.replace_trailing_slash (s +:+ "/") = s.
Proof.
  induction s as [|c s IH]; [done |].
  change (String c s +:+ "/") with (String c (s +:+ "/")).
  simpl. rewrite IH. by destruct s.
Qed.

(** Without a final slash the pattern does not match. *)
Lemma replace_trailing_slash_other s :
  (∀ a, s ≠ a +:+ "/") -> JS.replace_trailing_slash s = s.
Proof.
  induction s as [|c s IH]; [done |]. intros Hs.
  destruct s as [|d s].
  - simpl. destruct (Ascii.eqb_spec c "/"%char) as [->|]; [|done].
    by destruct (Hs "").
  - change (JS.replace_trailing_slash (String c (String d s)))
      with (String c (JS.replace_trailing_slash (String d s))).
    rewrite IH; [done |]. intros a Ha. apply (Hs (String c a)).
    rewrite Ha. reflexivity.
Qed.

End js_strings.

(** ** Masking *)

Section masking.

Implicit Types key hidden visible : string.

(** With four visible code units at the end, the mask is a run of
    stars, as long as the hidden part but never shorter than four,
    followed by the visible part. *)
Lemma mask_append hidden visible :
  JS.length visible = 4 ->
  maskKeyForDisplay (hidden +:+ visible) =
    JS.repeat "*" (Nat.max (JS.length hidden) 4) +:+ visible.
Proof.
  intros Hv. unfold maskKeyForDisplay.
  rewrite truthy_true.
  2:{ intros Heq. apply (f_equal JS.length) in Heq.
      rewrite length_append, Hv in Heq. simpl in Heq. lia. }
  assert (JS.slice_last 4 (hidden +:+ visible) = visible) as ->
    by (rewrite <- Hv; apply slice_last_append).
  cbn [negb]. rewrite length_append. do 2 f_equal. lia.
Qed.

(** A key of at most four code units is shown whole behind four stars. *)
Lemma mask_short key :
  key ≠ "" -> JS.length key <= 4 ->
  maskKeyForDisplay key = "****" +:+ key.
Proof.
  intros Hne Hlen. unfold maskKeyForDisplay.
  rewrite truthy_true by done. cbn [negb].
  rewrite slice_last_short by done.
  by replace (JS.length key - JS.length key) with 0 by lia.
Qed.

Lemma mask_long_idempotent key :
  4 <= JS.length key ->
  maskKeyForDisplay (maskKeyForDisplay key) = maskKeyForDisplay key.
Proof.
  intros Hlen. destruct (split_last 4 key Hlen) as (hidden & Hkey & Hvis).
  rewrite Hkey, !mask_append, length_repeat_star by done.
  do 2 f_equal. lia.
Qed.

Lemma mask_length key : key ≠ "" -> 8 <= JS.length (maskKeyForDisplay key) ∨
                                     maskKeyForDisplay key = "****" +:+ key.
Proof.
  intros Hne. destruct (decide (JS.length key <= 4)) as [Hle|Hgt].
  - right. by apply mask_short.
  - left. destruct (split_last 4 key) as (hidden & Hkey & Hvis); [lia |].
    rewrite Hkey, mask_append, length_append, length_repeat_star by done. lia.
Qed.

End masking.



(** The guard of the first line: without a key there is nothing to
    display, and no run of stars either. *)
Lemma mask_empty_key_display :
  maskKeyForDisplay "" = "" ∧ ¬ masks_all_but_last_four "".
Proof.
  split; [reflexivity |].
  intros (hidden & visible & _ & _ & _ & Hmask & _).
  apply (f_equal JS.length) in Hmask.
  rewrite length_append, length_repeat_star in Hmask. simpl in Hmask. lia.
Qed.

(** C9, as the code has it: masking is idempotent on the empty key and on
    keys of at least four code units, and from the second application on
    for every key. *)
Theorem mask_idempotent_from_four (key : string) :
  (key = "" ∨ 4 <= JS.length key ->
   maskKeyForDisplay (maskKeyForDisplay key) = maskKeyForDisplay key) ∧
  maskKeyForDisplay (maskKeyForDisplay (maskKeyForDisplay key)) =
    maskKeyForDisplay (maskKeyForDisplay key).
Proof.
  split.
  - intros [-> | Hlen]; [reflexivity | by apply mask_long_idempotent].
  - destruct (decide (key = "")) as [-> | Hne]; [reflexivity |].
    apply mask_long_idempotent.
    destruct (mask_length key Hne) as [Hlong | ->]; [lia |].
    rewrite length_append. simpl. lia.
Qed.

Lemma mask_idempotent_from_four_witness :
  4 <= JS.length "sk-1234567890" ∧
  maskKeyForDisplay (maskKeyForDisplay "sk-1234567890") = maskKeyForDisplay "sk-1234567890".
Proof.
  assert (4 <= JS.length "sk-1234567890") as Hlen by (simpl; lia).
  split; [exact Hlen |].
  exact (proj1 (mask_idempotent_from_four "sk-1234567890") (or_intror Hlen)).
Defined.

(** C9 fails for a key of two code units: the first display is six code
    units long, the second eight. *)
Lemma mask_not_idempotent_counterexample :
  maskKeyForDisplay "ab" = "****ab" ∧
  maskKeyForDisplay (maskKeyForDisplay "ab") = "******ab" ∧
  maskKeyForDisplay (maskKeyForDisplay "ab") ≠ maskKeyForDisplay "ab".
Proof. repeat split. discriminate. Qed.

(** ** Arrays *)

Section js_arrays.

Context {A : Type}.
Implicit Types arr : list A.

(** Cutting or padding is stdpp's [resize]. *)
Lemma fit_length_resize (filler : A) n arr : fit_length filler n arr = resize n filler arr.
Proof.
  unfold fit_length. repeat case_decide.
  - by rewrite resize_le by lia.
  - by rewrite resize_ge by lia.
  - by rewrite resize_all_alt by lia.
Qed.

Lemma length_fit_length (filler : A) n arr : length (fit_length filler n arr) = n.
Proof. by rewrite fit_length_resize, length_resize. Qed.

Lemma lookup_fit_length (filler : A) n arr i :
  i < n -> fit_length filler n arr !! i = Some (default filler (arr !! i)).
Proof.
  intros Hi. rewrite fit_length_resize, resize_spec.
  destruct (decide (i < length arr)) as [Hlt|Hge].
  - rewrite lookup_app_l by (rewrite length_take; lia).
    rewrite lookup_take_lt by done.
    destruct (lookup_lt_is_Some_2 arr i Hlt) as [x ->]. done.
  - rewrite lookup_app_r by (rewrite length_take; lia).
    rewrite lookup_replicate_2 by (rewrite length_take; lia).
    by rewrite (lookup_ge_None_2 arr i) by lia.
Qed.

Lemma fit_length_same (filler : A) n arr : length arr = n -> fit_length filler n arr = arr.
Proof. intros Hn. unfold fit_length. repeat case_decide; (done || lia). Qed.

(** Filtering out one index is stdpp's [delete]. *)
Lemma filter_from_not_index idx start arr :
  filter_from (not_index (start + idx)) start arr = delete idx arr.
Proof.
  revert idx start. induction arr as [|x arr IH]; intros idx start; [by destruct idx |].
  simpl. unfold not_index at 1. destruct idx as [|idx].
  - rewrite Nat.add_0_r, Nat.eqb_refl. simpl.
    clear IH. set (k := S start). assert (start < k) as Hk by (unfold k; lia).
    clearbody k. revert k Hk. induction arr as [|y arr IH]; intros k Hk; [done |].
    simpl. unfold not_index at 1.
    destruct (Nat.eqb_spec start k) as [?|_]; [lia |]. simpl. f_equal. apply IH. lia.
  - destruct (Nat.eqb_spec (start + S idx) start) as [?|_]; [lia |]. simpl. f_equal.
    replace (start + S idx) with (S start + idx) by lia. apply IH.
Qed.

Lemma array_filter_not_index idx arr : array_filter (not_index idx) arr = delete idx arr.
Proof. apply (filter_from_not_index idx 0). Qed.

Lemma length_array_set (hole : A) arr i v :
  length (array_set hole arr i v) = Nat.max (length arr) (S i).
Proof.
  unfold array_set. case_decide.
  - rewrite length_insert. lia.
  - rewrite !length_app, length_replicate. simpl. lia.
Qed.

End js_arrays.

Lemma length_fit_metadata n arr : length (fit_metadata n arr) = n.
Proof.
  unfold fit_metadata. repeat case_decide.
  - rewrite length_take. lia.
  - rewrite length_fmap, length_app, length_replicate. lia.
  - rewrite length_fmap. lia.
Qed.

Lemma fit_metadata_same n arr : length arr = n -> fit_metadata n arr = or_default <$> arr.
Proof. intros Hn. unfold fit_metadata. repeat case_decide; (done || lia). Qed.

(** ** Config objects *)

Lemma lookup_obj_set (obj : Configs) i v j :
  obj_set obj i v !! j = if decide (i = j) then v else obj !! j.
Proof. unfold obj_set. apply lookup_partial_alter. Qed.

Lemma lookup_obj_set_eq (obj : Configs) i v : obj_set obj i v !! i = v.
Proof. by rewrite lookup_obj_set, decide_True. Qed.

(** After the [forEach] of [onDelete] the new object holds, at each index
    of the filtered list, the old entry of the shifted index, and nothing
    else. *)
Lemma lookup_reindexConfigs idx urls (old : Configs) j :
  reindexConfigs idx urls old !! j =
    if decide (j < length urls) then old !! shifted_index idx j else None.
Proof.
  unfold reindexConfigs. generalize (length urls) as n. clear urls.
  induction n as [|n IH].
  - cbn [seq foldl]. rewrite lookup_empty. by rewrite decide_False by lia.
  - rewrite seq_S, foldl_app. simpl. rewrite lookup_obj_set, IH.
    destruct (decide (n = j)) as [->|Hne].
    + by rewrite decide_True by lia.
    + destruct (decide (j < n)).
      * by rewrite decide_True by lia.
      * by rewrite decide_False by lia.
Qed.

(** ** Invariant I1 *)

Section alignment.

Implicit Types st : State.

Lemma ensure_aligned st : aligned (ensureOpenAIArrayLengths st).
Proof.
  unfold aligned, ensureOpenAIArrayLengths. simpl.
  by rewrite !length_fit_length, length_fit_metadata.
Qed.

Lemma ensure_urls st :
  OPENAI_API_BASE_URLS (ensureOpenAIArrayLengths st) = OPENAI_API_BASE_URLS st.
Proof. reflexivity. Qed.

Lemma ensure_configs st :
  OPENAI_API_CONFIGS (ensureOpenAIArrayLengths st) = OPENAI_API_CONFIGS st.
Proof. reflexivity. Qed.

(** On aligned lists only nullish descriptors change. *)
Lemma ensure_of_aligned st :
  aligned st ->
  OPENAI_API_KEYS (ensureOpenAIArrayLengths st) = OPENAI_API_KEYS st ∧
  OPENAI_API_KEY_KEEP (ensureOpenAIArrayLengths st) = OPENAI_API_KEY_KEEP st ∧
  OPENAI_API_KEY_METADATA (ensureOpenAIArrayLengths st) =
    or_default <$> OPENAI_API_KEY_METADATA st.
Proof.
  intros (Hk & Hp & Hm). unfold ensureOpenAIArrayLengths. simpl.
  by rewrite !fit_length_same, fit_metadata_same.
Qed.

Lemma updateOpenAIHandler_aligned st :
  aligned st -> aligned (fst (updateOpenAIHandler st)).
Proof.
  intros Hst. unfold updateOpenAIHandler.
  destruct (ENABLE_OPENAI_API st); [apply ensure_aligned | done].
Qed.

Lemma resume_aligned res st :
  aligned st ∨ is_Some res -> aligned (updateOpenAIHandler_resume res st).
Proof.
  destruct res as [r|]; simpl.
  - intros _. apply ensure_aligned.
  - intros [Hst | [? ?]]; done.
Qed.

Lemma perform_aligned op st st' :
  aligned st ∨ realigns op = true ->
  perform op st = Some st' ->
  aligned st'.
Proof.
  intros Hpre Hop. destruct op as [c | idx c | idx | | res]; simpl in Hop.
  - injection Hop as <-. apply updateOpenAIHandler_aligned, ensure_aligned.
  - unfold onSubmit_OpenAIConnection in Hop. case_decide; [|done].
    simpl in Hop. injection Hop as <-.
    apply updateOpenAIHandler_aligned, ensure_aligned.
  - injection Hop as <-. apply updateOpenAIHandler_aligned, ensure_aligned.
  - injection Hop as <-. destruct Hpre as [Hst | ?]; [|done].
    by apply updateOpenAIHandler_aligned.
  - injection Hop as <-. apply resume_aligned.
    destruct Hpre as [Hst | Hres]; [by left |]. destruct res; [by right | done].
Qed.

(** Every operation is defined on the indices of the [#each] block. *)
Lemma perform_defined op st :
  (∀ idx connection, op = Update idx connection ->
                     idx < length (OPENAI_API_BASE_URLS st)) ->
  is_Some (perform op st).
Proof.
  intros Hidx. destruct op as [c | idx c | idx | | res]; simpl; try by eexists.
  unfold onSubmit_OpenAIConnection.
  rewrite decide_True by (by eapply Hidx). by eexists.
Qed.

Lemma run_aligned ops st sts :
  aligned st -> run st ops = Some sts -> Forall aligned sts.
Proof.
  revert st sts. induction ops as [|op ops IH]; intros st sts Hst Hrun; simpl in Hrun.
  - injection Hrun as <-. constructor.
  - destruct (perform op st) as [st'|] eqn:Hop; [|done]. simpl in Hrun.
    destruct (run st' ops) as [rest|] eqn:Hrest; [|done]. simpl in Hrun.
    injection Hrun as <-.
    assert (aligned st') by (eapply perform_aligned; eauto).
    constructor; eauto.
Qed.

End alignment.

(** C1: [ensureOpenAIArrayLengths] makes the key inputs, the keep-flags
    and the key descriptors as long as the base URLs whatever the state;
    so do [addOpenAIConnectionHandler] and the delete handler; and in every
    sequence of operations that starts from equally long lists, or with an
    add, update or delete, the lists are equally long after every
    operation. *)
Theorem connection_lists_stay_aligned :
  (∀ st, aligned (ensureOpenAIArrayLengths st)) ∧
  (∀ connection st, aligned (fst (addOpenAIConnectionHandler connection st))) ∧
  (∀ idx st, aligned (fst (onDelete_OpenAIConnection idx st))) ∧
  (∀ st op ops sts,
     aligned st ∨ realigns op = true ->
     run st (op :: ops) = Some sts ->
     Forall aligned sts).
Proof.
  split_and!.
  - apply ensure_aligned.
  - intros c st. apply (perform_aligned (Add c) st); [by right | done].
  - intros idx st. apply (perform_aligned (Delete idx) st); [by right | done].
  - intros st op ops sts Hpre Hrun. simpl in Hrun.
    destruct (perform op st) as [st'|] eqn:Hop; [|done]. simpl in Hrun.
    destruct (run st' ops) as [rest|] eqn:Hrest; [|done]. simpl in Hrun.
    injection Hrun as <-.
    assert (aligned st') by (eapply perform_aligned; eauto).
    constructor; [done |]. by eapply run_aligned.
Qed.

Lemma connection_lists_stay_aligned_witness :
  ∃ sts,
    realigns (Add exampleConnection) = true ∧
    run initialState [Add exampleConnection; Update 0 exampleConnection; Delete 1; Save]
      = Some sts ∧
    Forall aligned sts.
Proof.
  destruct connection_lists_stay_aligned as (_ & _ & _ & Hseq).
  eexists. split; [reflexivity |]. split; [vm_compute; reflexivity |].
  apply (Hseq initialState (Add exampleConnection)
           [Update 0 exampleConnection; Delete 1; Save]);
    [right; reflexivity | vm_compute; reflexivity].
Defined.

(** ** The key payloads of the update request *)

Section key_payloads.

Implicit Types st : State.

Lemma keyPayload_ensure st idx :
  idx < length (OPENAI_API_BASE_URLS st) ->
  keyPayload (ensureOpenAIArrayLengths st) idx = keyPayload st idx.
Proof.
  intros Hidx. unfold keyPayload, ensureOpenAIArrayLengths. simpl.
  rewrite !lookup_fit_length by done.
  by destruct (OPENAI_API_KEY_KEEP st !! idx), (OPENAI_API_KEYS st !! idx).
Qed.

(** With the API switch set, the request carries one entry per base URL,
    computed from the keep-flag and the key input of that index. *)
Lemma sentKeyPayload_keyPayload st enable idx :
  ENABLE_OPENAI_API st = Some enable ->
  idx < length (OPENAI_API_BASE_URLS st) ->
  sentKeyPayload st idx = Some (keyPayload st idx).
Proof.
  intros Hen Hidx. unfold sentKeyPayload, updateOpenAIHandler. rewrite Hen. simpl.
  unfold keyPayloads. rewrite list_lookup_imap, ensure_urls. simpl.
  rewrite list_lookup_fmap.
  destruct (lookup_lt_is_Some_2 _ _ Hidx) as [u ->]. simpl. f_equal.
  rewrite keyPayload_ensure; [done |]. simpl. by rewrite length_fmap.
Qed.

End key_payloads.

(** C3: when the update is submitted, the entry sent for an index whose
    keep-flag is set is [{ keep: true }], and it is the same whatever the
    key input fields hold. *)
Theorem keep_path_sends_no_key (st : State) (enable : bool) (idx : nat) :
  ENABLE_OPENAI_API st = Some enable ->
  idx < length (OPENAI_API_BASE_URLS st) ->
  OPENAI_API_KEY_KEEP st !! idx = Some true ->
  sentKeyPayload st idx = Some KeepKey ∧
  ∀ typed1 typed2,
    sentKeyPayload (set_OPENAI_API_KEYS typed1 st) idx =
    sentKeyPayload (set_OPENAI_API_KEYS typed2 st) idx.
Proof.
  intros Hen Hidx Hkeep. split.
  - rewrite (sentKeyPayload_keyPayload st enable) by done.
    unfold keyPayload. by rewrite Hkeep.
  - intros typed1 typed2.
    rewrite !(sentKeyPayload_keyPayload _ enable) by done.
    unfold keyPayload. simpl. by rewrite Hkeep.
Qed.

Lemma keep_path_sends_no_key_witness :
  ENABLE_OPENAI_API exampleState = Some true ∧
  0 < length (OPENAI_API_BASE_URLS exampleState) ∧
  OPENAI_API_KEY_KEEP exampleState !! 0 = Some true ∧
  sentKeyPayload exampleState 0 = Some KeepKey.
Proof.
  assert (0 < length (OPENAI_API_BASE_URLS exampleState)) as Hidx by (simpl; lia).
  split_and!; [reflexivity | exact Hidx | reflexivity |].
  exact (proj1 (keep_path_sends_no_key exampleState true 0 eq_refl Hidx eq_refl)).
Defined.

(** C4, as the code has it: with the API switch set the handler always
    sends the request; the entry of each index is [{ keep: true }] when
    the keep-flag is set, whatever the key input holds, and otherwise
    [{ value }] with the key input (the empty string when there is none). *)
Theorem key_edits_resolve_silently (st : State) (enable : bool) :
  ENABLE_OPENAI_API st = Some enable ->
  ∃ req,
    snd (updateOpenAIHandler st) = Some req ∧
    length (req_OPENAI_API_KEYS req) = length (OPENAI_API_BASE_URLS st) ∧
    ∀ idx,
      idx < length (OPENAI_API_BASE_URLS st) ->
      req_OPENAI_API_KEYS req !! idx =
        Some (if truthy_bool (OPENAI_API_KEY_KEEP st !! idx) then KeepKey
              else KeyValue (default "" (OPENAI_API_KEYS st !! idx))).
Proof.
  intros Hen.
  destruct (snd (updateOpenAIHandler st)) as [req|] eqn:Hreq.
  2:{ unfold updateOpenAIHandler in Hreq. by rewrite Hen in Hreq. }
  exists req. split_and!; [done | |].
  - unfold updateOpenAIHandler in Hreq. rewrite Hen in Hreq. simpl in Hreq.
    injection Hreq as <-. simpl. unfold keyPayloads.
    by rewrite length_imap, ensure_urls; simpl; rewrite length_fmap.
  - intros idx Hidx.
    pose proof (sentKeyPayload_keyPayload st enable idx Hen Hidx) as Hsent.
    unfold sentKeyPayload in Hsent. rewrite Hreq in Hsent. exact Hsent.
Qed.

Lemma key_edits_resolve_silently_witness :
  ENABLE_OPENAI_API exampleState = Some true ∧
  ∃ req, snd (updateOpenAIHandler exampleState) = Some req ∧
         req_OPENAI_API_KEYS req !! 0 = Some KeepKey.
Proof.
  split; [reflexivity |].
  destruct (key_edits_resolve_silently exampleState true eq_refl) as (req & Hreq & _ & Hkeys).
  exists req. split; [exact Hreq |]. apply (Hkeys 0). simpl. lia.
Defined.

(** C4 fails on a conflicting edit: keep-flag set and a new key typed. The
    request is sent, with [{ keep: true }] for that index. The add handler
    itself produces such an edit from a connection object that has both a
    key and [hasStoredKey], and sends it in the same way. *)
Lemma conflicting_edit_counterexample :
  conflictingEdit exampleState 0 ∧
  (∃ req, snd (updateOpenAIHandler exampleState) = Some req ∧
          req_OPENAI_API_BASE_URLS req = ["https://api.openai.com/v1"] ∧
          req_OPENAI_API_KEYS req = [KeepKey]) ∧
  conflictingEdit (fst (addOpenAIConnectionHandler conflictingConnection exampleState)) 1 ∧
  (∃ req, snd (addOpenAIConnectionHandler conflictingConnection exampleState) = Some req ∧
          req_OPENAI_API_KEYS req = [KeepKey; KeepKey]).
Proof.
  split_and!.
  - split; [reflexivity |]. exists "sk-new". split; [reflexivity | discriminate].
  - eexists. split; [vm_compute; reflexivity |]. split; reflexivity.
  - split; [vm_compute; reflexivity |].
    exists "sk-new". split; [vm_compute; reflexivity | discriminate].
  - eexists. split; [vm_compute; reflexivity |]. reflexivity.
Qed.

(** ** Deleting a connection *)

Section deletion.

Implicit Types st : State.

Lemma shifted_down_delete {A} (f : A -> A) (old : list A) idx :
  idx < length old ->
  shifted_down idx (length old) f old (f <$> delete idx old).
Proof.
  intros Hidx. split.
  - rewrite length_fmap. apply length_delete. by apply lookup_lt_is_Some_2.
  - intros j Hj. rewrite list_lookup_fmap, list_lookup_delete.
    unfold shifted_index. by rewrite Nat.add_1_r.
Qed.

Lemma configs_shifted_down_reindex idx (urls : list string) (old : Configs) :
  idx < length urls ->
  configs_shifted_down idx (length urls) old (reindexConfigs idx (delete idx urls) old).
Proof.
  intros Hidx.
  assert (length (delete idx urls) = length urls - 1) as Hlen
    by (apply length_delete; by apply lookup_lt_is_Some_2).
  split; intros j Hj; rewrite lookup_reindexConfigs, Hlen.
  - by rewrite decide_True.
  - by rewrite decide_False by lia.
Qed.

(** The lists right after the handler's own statements. *)
Lemma deleteOpenAIConnection_lists st idx :
  aligned st ->
  idx < length (OPENAI_API_BASE_URLS st) ->
  let st' := deleteOpenAIConnection idx st in
  aligned st' ∧
  OPENAI_API_BASE_URLS st' = delete idx (OPENAI_API_BASE_URLS st) ∧
  OPENAI_API_KEYS st' = delete idx (OPENAI_API_KEYS st) ∧
  OPENAI_API_KEY_KEEP st' = delete idx (OPENAI_API_KEY_KEEP st) ∧
  OPENAI_API_KEY_METADATA st' = or_default <$> delete idx (OPENAI_API_KEY_METADATA st) ∧
  OPENAI_API_CONFIGS st' =
    reindexConfigs idx (delete idx (OPENAI_API_BASE_URLS st)) (OPENAI_API_CONFIGS st).
Proof.
  intros (Hk & Hp & Hm) Hidx st'. split; [apply ensure_aligned |].
  unfold st', deleteOpenAIConnection.
  match goal with |- context [ensureOpenAIArrayLengths ?s] => set (st5 := s) end.
  assert (aligned st5) as Hst5.
  { unfold aligned, st5. simpl. rewrite !array_filter_not_index.
    rewrite !length_delete by (apply lookup_lt_is_Some_2; lia). lia. }
  destruct (ensure_of_aligned st5 Hst5) as (-> & -> & ->).
  rewrite ensure_urls, ensure_configs. unfold st5. simpl.
  by rewrite !array_filter_not_index.
Qed.

Lemma or_default_idemp (arr : list (option OpenAIKeyDescriptor)) :
  or_default <$> (or_default <$> arr) = or_default <$> arr.
Proof. rewrite <- list_fmap_compose. by apply list_fmap_ext. Qed.

(** What [updateOpenAIHandler] does to equally long lists. *)
Lemma updateOpenAIHandler_lists st :
  aligned st ->
  let st' := fst (updateOpenAIHandler st) in
  OPENAI_API_BASE_URLS st' = submittedUrl st <$> OPENAI_API_BASE_URLS st ∧
  OPENAI_API_KEYS st' = OPENAI_API_KEYS st ∧
  OPENAI_API_KEY_KEEP st' = OPENAI_API_KEY_KEEP st ∧
  OPENAI_API_KEY_METADATA st' =
    match ENABLE_OPENAI_API st with
    | Some _ => or_default <$> OPENAI_API_KEY_METADATA st
    | None => OPENAI_API_KEY_METADATA st
    end ∧
  OPENAI_API_CONFIGS st' = OPENAI_API_CONFIGS st.
Proof.
  intros Hst st'. unfold st', updateOpenAIHandler, submittedUrl.
  destruct (ENABLE_OPENAI_API st) as [enable|]; cbn [fst].
  - match goal with |- context [ensureOpenAIArrayLengths ?s] => set (st1 := s) end.
    assert (aligned st1) as Hst1.
    { destruct Hst as (Hk & Hp & Hm). unfold aligned, st1. simpl.
      by rewrite length_fmap. }
    destruct (ensure_of_aligned st1 Hst1) as (-> & -> & ->).
    by unfold st1.
  - split_and!; try done. by rewrite list_fmap_id.
Qed.

End deletion.

(** C5: deleting index [idx] from lists of length [n] leaves lists of
    length [n - 1]; the entries before [idx] stay, the entries after it
    move one index down, and the config object moves with its connection.
    For the OpenAI lists this holds right after the handler's own
    statements and after its closing call of [updateOpenAIHandler], which
    leaves each base URL in its submitted form and each descriptor
    non-nullish. The Ollama handler shifts its base URLs and config
    objects in the same way. *)
Theorem delete_shifts_connections (st : State) (idx : nat) :
  (aligned st ->
   idx < length (OPENAI_API_BASE_URLS st) ->
   let n := length (OPENAI_API_BASE_URLS st) in
   let realigned := deleteOpenAIConnection idx st in
   let st' := fst (onDelete_OpenAIConnection idx st) in
   shifted_down idx n id (OPENAI_API_BASE_URLS st) (OPENAI_API_BASE_URLS realigned) ∧
   shifted_down idx n (submittedUrl st)
     (OPENAI_API_BASE_URLS st) (OPENAI_API_BASE_URLS st') ∧
   shifted_down idx n id (OPENAI_API_KEYS st) (OPENAI_API_KEYS st') ∧
   shifted_down idx n id (OPENAI_API_KEY_KEEP st) (OPENAI_API_KEY_KEEP st') ∧
   shifted_down idx n or_default
     (OPENAI_API_KEY_METADATA st) (OPENAI_API_KEY_METADATA st') ∧
   configs_shifted_down idx n (OPENAI_API_CONFIGS st) (OPENAI_API_CONFIGS st')) ∧
  (idx < length (OLLAMA_BASE_URLS st) ->
   let m := length (OLLAMA_BASE_URLS st) in
   let st' := onDelete_OllamaConnection idx st in
   shifted_down idx m id (OLLAMA_BASE_URLS st) (OLLAMA_BASE_URLS st') ∧
   configs_shifted_down idx m (OLLAMA_API_CONFIGS st) (OLLAMA_API_CONFIGS st')).
Proof.
  split.
  - intros Hst Hidx n realigned st'.
    destruct (deleteOpenAIConnection_lists st idx Hst Hidx)
      as (Hre & Hurls & Hkeys & Hkeep & Hmeta & Hcfg).
    destruct (updateOpenAIHandler_lists (deleteOpenAIConnection idx st) Hre)
      as (Hurls' & Hkeys' & Hkeep' & Hmeta' & Hcfg').
    assert (submittedUrl (deleteOpenAIConnection idx st) = submittedUrl st) as Hsub
      by reflexivity.
    assert (ENABLE_OPENAI_API (deleteOpenAIConnection idx st) = ENABLE_OPENAI_API st)
      as Hen by reflexivity.
    unfold onDelete_OpenAIConnection in st'. subst n realigned st'.
    generalize dependent (fst (updateOpenAIHandler (deleteOpenAIConnection idx st))).
    intros fin.
    generalize dependent (deleteOpenAIConnection idx st).
    intros mid Hre Hurls Hkeys Hkeep Hmeta Hcfg Hsub Hen Hurls' Hkeys' Hkeep' Hmeta' Hcfg'.
    destruct Hst as (Hk & Hp & Hm).
    split_and!.
    + rewrite Hurls, <- (list_fmap_id (delete _ _)). by apply shifted_down_delete.
    + rewrite Hurls', Hurls, Hsub. by apply shifted_down_delete.
    + rewrite Hkeys', Hkeys, <- (list_fmap_id (delete _ _)), <- Hk.
      apply shifted_down_delete. lia.
    + rewrite Hkeep', Hkeep, <- (list_fmap_id (delete _ _)), <- Hp.
      apply shifted_down_delete. lia.
    + assert (OPENAI_API_KEY_METADATA fin =
              or_default <$> delete idx (OPENAI_API_KEY_METADATA st)) as ->.
      { rewrite Hmeta', Hmeta.
        destruct (ENABLE_OPENAI_API mid); [apply or_default_idemp | done]. }
      rewrite <- Hm. apply shifted_down_delete. lia.
    + rewrite Hcfg', Hcfg. by apply configs_shifted_down_reindex.
  - intros Hidx m st'.
    assert (OLLAMA_BASE_URLS st' = delete idx (OLLAMA_BASE_URLS st)) as Hurls
      by apply array_filter_not_index.
    assert (OLLAMA_API_CONFIGS st' =
            reindexConfigs idx (delete idx (OLLAMA_BASE_URLS st)) (OLLAMA_API_CONFIGS st))
      as Hcfg.
    { unfold st', onDelete_OllamaConnection. cbn [OLLAMA_API_CONFIGS set_OLLAMA_API_CONFIGS
        OLLAMA_BASE_URLS set_OLLAMA_BASE_URLS]. by rewrite array_filter_not_index. }
    subst m. clearbody st'. rewrite Hurls, Hcfg. split.
    + rewrite <- (list_fmap_id (delete _ _)). by apply shifted_down_delete.
    + by apply configs_shifted_down_reindex.
Qed.

Lemma delete_shifts_connections_witness :
  aligned exampleThree ∧
  1 < length (OPENAI_API_BASE_URLS exampleThree) ∧
  shifted_down 1 3 (submittedUrl exampleThree)
    (OPENAI_API_BASE_URLS exampleThree)
    (OPENAI_API_BASE_URLS (fst (onDelete_OpenAIConnection 1 exampleThree))) ∧
  configs_shifted_down 1 3
    (OPENAI_API_CONFIGS exampleThree)
    (OPENAI_API_CONFIGS (fst (onDelete_OpenAIConnection 1 exampleThree))).
Proof.
  assert (aligned exampleThree) as Hal by (repeat split).
  assert (1 < length (OPENAI_API_BASE_URLS exampleThree)) as Hidx by (simpl; lia).
  destruct (proj1 (delete_shifts_connections exampleThree 1) Hal Hidx)
    as (_ & Hurls & _ & _ & _ & Hcfg).
  split_and!; [exact Hal | exact Hidx | exact Hurls | exact Hcfg].
Defined.

(** Deleting the middle one of three connections, computed. *)
Example delete_middle_connection :
  let st' := fst (onDelete_OpenAIConnection 1 exampleThree) in
  OPENAI_API_BASE_URLS st' = ["https://a.example/v1"; "https://c.example/v1"] ∧
  OPENAI_API_KEYS st' = [""; ""] ∧
  OPENAI_API_KEY_KEEP st' = [true; true] ∧
  OPENAI_API_CONFIGS st' !! 1 = Some {["prefix_id" := JStr "c"]} ∧
  OPENAI_API_CONFIGS st' !! 2 = None.
Proof. intros st'. split_and!; vm_compute; reflexivity. Qed.

(** ** The response of the update request *)

(** C10: after a response arrived, every key input is the empty string,
    and the keep-flag of each index is the [has_value] of the returned
    descriptor of that index, [false] when the response has none or a
    nullish one. *)
Theorem response_clears_typed_keys (st : State) (r : OpenAIConfigResponse) :
  let st' := updateOpenAIHandler_resume (Some r) st in
  let returned := default [] (res_OPENAI_API_KEYS r) in
  OPENAI_API_BASE_URLS st' = res_OPENAI_API_BASE_URLS r ∧
  length (OPENAI_API_KEYS st') = length (res_OPENAI_API_BASE_URLS r) ∧
  Forall (fun typed => typed = "") (OPENAI_API_KEYS st') ∧
  length (OPENAI_API_KEY_KEEP st') = length (res_OPENAI_API_BASE_URLS r) ∧
  ∀ i,
    i < length (res_OPENAI_API_BASE_URLS r) ->
    OPENAI_API_KEY_KEEP st' !! i =
      Some (match returned !! i with
            | Some (Some descriptor) => has_value descriptor
            | Some None | None => false
            end).
Proof.
  intros st' returned.
  assert (OPENAI_API_KEYS st' =
          fit_length "" (length (res_OPENAI_API_BASE_URLS r))
            ((fun _ => "") <$> res_OPENAI_API_BASE_URLS r)) as Hkeys by reflexivity.
  assert (OPENAI_API_KEY_KEEP st' =
          fit_length false (length (res_OPENAI_API_BASE_URLS r))
            (has_value_or_false <$> returned)) as Hkeep by reflexivity.
  assert (OPENAI_API_BASE_URLS st' = res_OPENAI_API_BASE_URLS r) as Hurls by reflexivity.
  clearbody st'. rewrite Hkeys, Hkeep, !length_fit_length.
  split_and!; try done.
  - rewrite fit_length_same by apply length_fmap.
    apply Forall_fmap. by apply Forall_true.
  - intros i Hi. rewrite lookup_fit_length by done. f_equal.
    rewrite list_lookup_fmap. by destruct (returned !! i) as [[d|]|].
Qed.

Lemma response_clears_typed_keys_witness :
  let st' := updateOpenAIHandler_resume (Some exampleResponse) exampleState in
  0 < length (res_OPENAI_API_BASE_URLS exampleResponse) ∧
  1 < length (res_OPENAI_API_BASE_URLS exampleResponse) ∧
  OPENAI_API_KEYS st' = [""; ""] ∧
  OPENAI_API_KEY_KEEP st' !! 0 = Some true ∧
  OPENAI_API_KEY_KEEP st' !! 1 = Some false.
Proof.
  assert (0 < length (res_OPENAI_API_BASE_URLS exampleResponse)) as Hstored
    by (simpl; lia).
  assert (1 < length (res_OPENAI_API_BASE_URLS exampleResponse)) as Hnone
    by (simpl; lia).
  destruct (response_clears_typed_keys exampleState exampleResponse)
    as (_ & _ & _ & _ & Hkeep).
  split_and!;
    [exact Hstored | exact Hnone | reflexivity
     | exact (Hkeep 0 Hstored) | exact (Hkeep 1 Hnone)].
Defined.

(** ** Base URLs *)

(** C7: the update handlers strip the trailing slash of every base URL
    before they send the request, in the state and in the request; a URL
    that is an allow-listed entry followed by a slash passes the
    allow-list check in its normalized form. *)
Theorem submitted_base_urls_are_normalized :
  (∀ st enable,
     ENABLE_OPENAI_API st = Some enable ->
     ∃ req,
       snd (updateOpenAIHandler st) = Some req ∧
       req_OPENAI_API_BASE_URLS req =
         JS.replace_trailing_slash <$> OPENAI_API_BASE_URLS st ∧
       OPENAI_API_BASE_URLS (fst (updateOpenAIHandler st)) =
         JS.replace_trailing_slash <$> OPENAI_API_BASE_URLS st) ∧
  (∀ st enable,
     ENABLE_OLLAMA_API st = Some enable ->
     ∃ req,
       snd (updateOllamaHandler st) = Some req ∧
       req_OLLAMA_BASE_URLS req = JS.replace_trailing_slash <$> OLLAMA_BASE_URLS st ∧
       OLLAMA_BASE_URLS (fst (updateOllamaHandler st)) =
         JS.replace_trailing_slash <$> OLLAMA_BASE_URLS st) ∧
  (∀ base, JS.replace_trailing_slash (base +:+ "/") = base) ∧
  (∀ baseUrl, (∀ base, baseUrl ≠ base +:+ "/") -> JS.replace_trailing_slash baseUrl = baseUrl) ∧
  (∀ allowed entry,
     entry ∈ allowed -> validateBaseUrl allowed (entry +:+ "/") = inr entry) ∧
  (∀ st connection entry,
     entry ∈ allowedOpenAIBaseUrls st ->
     url connection = entry +:+ "/" ->
     ∃ out, addConnection connection st = inr out ∧
            OPENAI_API_BASE_URLS (fst out) =
              submittedUrl st <$> (OPENAI_API_BASE_URLS st ++ [entry])).
Proof.
  split_and!.
  - intros st enable Hen. unfold updateOpenAIHandler. rewrite Hen.
    eexists. split; [reflexivity |]. split; reflexivity.
  - intros st enable Hen. unfold updateOllamaHandler. rewrite Hen.
    eexists. split; [reflexivity |]. split; reflexivity.
  - apply replace_trailing_slash_append.
  - apply replace_trailing_slash_other.
  - intros allowed entry Hin. unfold validateBaseUrl.
    rewrite replace_trailing_slash_append.
    destruct allowed as [|a allowed]; [done |]. by rewrite decide_True.
  - intros st connection entry Hin Hurl. unfold addConnection.
    rewrite Hurl. unfold validateBaseUrl. rewrite replace_trailing_slash_append.
    destruct (allowedOpenAIBaseUrls st) as [|a allowed]; [by apply elem_of_nil in Hin |].
    rewrite decide_True by done. eexists. split; [reflexivity |].
    unfold addOpenAIConnectionHandler, updateOpenAIHandler, submittedUrl.
    cbn [ENABLE_OPENAI_API ensureOpenAIArrayLengths set_OPENAI_API_KEY_METADATA
         set_OPENAI_API_KEY_KEEP set_OPENAI_API_KEYS set_OPENAI_API_CONFIGS
         set_OPENAI_API_BASE_URLS url].
    destruct (ENABLE_OPENAI_API st); cbn [fst]; [reflexivity |].
    cbn [OPENAI_API_BASE_URLS]. by rewrite list_fmap_id.
Qed.

Lemma submitted_base_urls_are_normalized_witness :
  "https://api.openai.com/v1" ∈ ["https://api.openai.com/v1"] ∧
  validateBaseUrl ["https://api.openai.com/v1"] "https://api.openai.com/v1/"
    = inr "https://api.openai.com/v1".
Proof.
  assert ("https://api.openai.com/v1" ∈ ["https://api.openai.com/v1"]) as Hin
    by (apply list_elem_of_singleton; reflexivity).
  split; [exact Hin |].
  exact (proj1 (proj2 (proj2 (proj2 (proj2 submitted_base_urls_are_normalized))))
           ["https://api.openai.com/v1"] "https://api.openai.com/v1" Hin).
Defined.

(** C6: with a non-empty allow-list, a base URL whose normalized form is
    not an entry of the list is rejected with [UrlNotAllowed], when a
    connection is added and in any upsert that contains it. *)
Theorem url_outside_allow_list_is_rejected (allowed : list string) (baseUrl : string) :
  allowed ≠ [] ->
  JS.replace_trailing_slash baseUrl ∉ allowed ->
  validateBaseUrl allowed baseUrl = inl UrlNotAllowed ∧
  (∀ st connection,
     allowedOpenAIBaseUrls st = allowed ->
     url connection = baseUrl ->
     addConnection connection st = inl UrlNotAllowed) ∧
  (∀ before after,
     upsertBaseUrls allowed (before ++ baseUrl :: after) = inl UrlNotAllowed).
Proof.
  intros Hne Hout.
  assert (validateBaseUrl allowed baseUrl = inl UrlNotAllowed) as Hval.
  { unfold validateBaseUrl. destruct allowed as [|a allowed]; [done |].
    by rewrite decide_False. }
  split_and!; [done | |].
  - intros st connection Hal Hurl. unfold addConnection. by rewrite Hal, Hurl, Hval.
  - intros before after. induction before as [|b before IH]; simpl.
    + by rewrite Hval.
    + destruct (validateBaseUrl allowed b) as [[]|normalized]; [done |].
      by rewrite IH.
Qed.

Lemma url_outside_allow_list_is_rejected_witness :
  (["https://api.openai.com/v1"] ≠ @nil string) ∧
  (JS.replace_trailing_slash "https://evil.example.com" ∉ ["https://api.openai.com/v1"]) ∧
  validateBaseUrl ["https://api.openai.com/v1"] "https://evil.example.com"
    = inl UrlNotAllowed.
Proof.
  assert (["https://api.openai.com/v1"] ≠ @nil string) as Hne by discriminate.
  assert (JS.replace_trailing_slash "https://evil.example.com"
            ∉ ["https://api.openai.com/v1"]) as Hout
    by (intros Hin; apply list_elem_of_singleton in Hin; discriminate).
  split_and!; [exact Hne | exact Hout |].
  exact (proj1 (url_outside_allow_list_is_rejected
                  ["https://api.openai.com/v1"] "https://evil.example.com" Hne Hout)).
Defined.

(** ** Keys and config objects *)

(** C8, as the code has it: for an OpenAI connection the config object
    stored at the connection's index is [connection.config] as it came,
    whatever the key, on add and on update; for an Ollama connection
    [addOllamaConnectionHandler] stores [connection.config] extended with
    the field [key] holding [connection.key]. *)
Theorem config_objects_and_keys :
  (∀ connection st,
     OPENAI_API_CONFIGS (fst (addOpenAIConnectionHandler connection st)) =
       obj_set (OPENAI_API_CONFIGS st) (length (OPENAI_API_BASE_URLS st))
         (config connection)) ∧
  (∀ idx connection st out,
     onSubmit_OpenAIConnection idx connection st = Some out ->
     OPENAI_API_CONFIGS (fst out) =
       obj_set (OPENAI_API_CONFIGS st) idx (config connection)) ∧
  (∀ connection st,
     OLLAMA_API_CONFIGS (fst (addOllamaConnectionHandler connection st))
       !! length (OLLAMA_BASE_URLS st) =
     Some (<["key" := key_property (key connection)]> (default ∅ (config connection)))).
Proof.
  split_and!.
  - intros connection st.
    unfold addOpenAIConnectionHandler, updateOpenAIHandler.
    cbn [ENABLE_OPENAI_API ensureOpenAIArrayLengths set_OPENAI_API_KEY_METADATA
         set_OPENAI_API_KEY_KEEP set_OPENAI_API_KEYS set_OPENAI_API_CONFIGS
         set_OPENAI_API_BASE_URLS OPENAI_API_BASE_URLS OPENAI_API_CONFIGS].
    replace (length (OPENAI_API_BASE_URLS st ++ [url connection]) - 1)
      with (length (OPENAI_API_BASE_URLS st)) by (rewrite length_app; simpl; lia).
    by destruct (ENABLE_OPENAI_API st).
  - intros idx connection st out Hout.
    unfold onSubmit_OpenAIConnection in Hout. case_decide; [|done].
    injection Hout as <-. unfold updateOpenAIHandler.
    destruct (truthy_bool (keyChanged connection));
      cbn [ENABLE_OPENAI_API ensureOpenAIArrayLengths set_OPENAI_API_KEY_METADATA
           set_OPENAI_API_KEY_KEEP set_OPENAI_API_KEYS set_OPENAI_API_CONFIGS
           set_OPENAI_API_BASE_URLS OPENAI_API_BASE_URLS OPENAI_API_CONFIGS];
      by destruct (ENABLE_OPENAI_API st).
  - intros connection st.
    unfold addOllamaConnectionHandler, updateOllamaHandler.
    cbn [ENABLE_OLLAMA_API set_OLLAMA_API_CONFIGS set_OLLAMA_BASE_URLS
         OLLAMA_BASE_URLS OLLAMA_API_CONFIGS].
    replace (length (OLLAMA_BASE_URLS st ++ [url connection]) - 1)
      with (length (OLLAMA_BASE_URLS st)) by (rewrite length_app; simpl; lia).
    destruct (ENABLE_OLLAMA_API st);
      exact (lookup_obj_set_eq (OLLAMA_API_CONFIGS st) (length (OLLAMA_BASE_URLS st))
               (Some (ollamaConfigWithKey connection))).
Qed.

Lemma config_objects_and_keys_witness :
  ∃ out,
    onSubmit_OpenAIConnection 0 exampleConnection exampleState = Some out ∧
    OPENAI_API_CONFIGS (fst out) =
      obj_set (OPENAI_API_CONFIGS exampleState) 0 (config exampleConnection).
Proof.
  eexists. split; [vm_compute; reflexivity |].
  apply (proj1 (proj2 config_objects_and_keys) 0 exampleConnection exampleState).
  vm_compute. reflexivity.
Defined.

(** C8 fails for Ollama: the config object stored for a new connection
    holds the connection's key in its field [key], and the update request
    carries that object. *)
Lemma ollama_config_holds_key_counterexample :
  key exampleConnection = Some "sk-1234567890" ∧
  (∃ c,
     OLLAMA_API_CONFIGS (fst (addOllamaConnectionHandler exampleConnection exampleState)) !! 1
       = Some c ∧
     c !! "key" = Some (JStr "sk-1234567890") ∧
     carries_key c "sk-1234567890") ∧
  (∃ req c,
     snd (addOllamaConnectionHandler exampleConnection exampleState) = Some req ∧
     req_OLLAMA_API_CONFIGS req !! 1 = Some c ∧
     carries_key c "sk-1234567890").
Proof.
  assert (carries_key (ollamaConfigWithKey exampleConnection) "sk-1234567890") as Hkey
    by (exists "key"; vm_compute; reflexivity).
  split; [reflexivity |]. split.
  - exists (ollamaConfigWithKey exampleConnection).
    split_and!; [vm_compute; reflexivity | vm_compute; reflexivity | exact Hkey].
  - destruct (snd (addOllamaConnectionHandler exampleConnection exampleState))
      as [req|] eqn:Hreq; [| vm_compute in Hreq; discriminate].
    exists req, (ollamaConfigWithKey exampleConnection).
    split_and!; [reflexivity | | exact Hkey].
    vm_compute in Hreq. injection Hreq as <-. vm_compute. reflexivity.
Qed.

(** * Further properties of the component *)

(** ** More on strings and masking *)

Section more_strings.

Implicit Types s a b key : string.

Lemma append_assoc a b c : (a +:+ b) +:+ c = a +:+ (b +:+ c).
Proof.
  induction a as [|x a IH]; [done |].
  change (String x ((a +:+ b) +:+ c) = String x (a +:+ (b +:+ c))). by rewrite IH.
Qed.

(** Either the pattern [/\/$/] does not match, or it matches the last
    code unit. *)
Lemma replace_trailing_slash_cases s :
  (JS.replace_trailing_slash s = s ∧ ∀ a, s ≠ a +:+ "/") ∨
  s = JS.replace_trailing_slash s +:+ "/".
Proof.
  induction s as [|c s IH]; [left; split; [done | by intros []] |].
  destruct s as [|d s].
  - simpl. destruct (Ascii.eqb_spec c "/"%char) as [->|Hc]; [by right |].
    left. split; [done |]. intros [|x a] Ha.
    + injection Ha as ->. by destruct Hc.
    + destruct a; discriminate.
  - change (JS.replace_trailing_slash (String c (String d s)))
      with (String c (JS.replace_trailing_slash (String d s))).
    destruct IH as [[Heq Hno] | Heq].
    + left. split; [by rewrite Heq |]. intros [|x a]; simpl; [discriminate |].
      intros [= -> Ha]. by apply (Hno a).
    + right.
      change (String c (String d s) =
              String c (JS.replace_trailing_slash (String d s) +:+ "/")).
      by f_equal.
Qed.

Lemma length_not_self_slash a : a ≠ a +:+ "/".
Proof.
  intros Heq. apply (f_equal JS.length) in Heq.
  rewrite length_append in Heq. simpl in Heq. lia.
Qed.

Lemma repeat_star_inj n m v w :
  JS.length v = JS.length w ->
  JS.repeat "*" n +:+ v = JS.repeat "*" m +:+ w ->
  n = m ∧ v = w.
Proof.
  intros Hlen Heq.
  assert (n = m) as ->.
  { apply (f_equal JS.length) in Heq.
    rewrite !length_append, !length_repeat_star in Heq. lia. }
  split; [done |]. by apply (inj (String.append _)) in Heq.
Qed.

End more_strings.

(** X1: the pattern [/\/$/] removes at most the last code unit: the result
    is the string itself or the string without its final slash. Applying
    it twice gives the same as once exactly for the strings that do not
    end in two slashes. *)
Theorem replace_trailing_slash_strips_one (s : string) :
  (JS.replace_trailing_slash s = s ∨ s = JS.replace_trailing_slash s +:+ "/") ∧
  (JS.replace_trailing_slash (JS.replace_trailing_slash s) = JS.replace_trailing_slash s
   ↔ ¬ ∃ base, s = base +:+ "//").
Proof.
  split.
  - destruct (replace_trailing_slash_cases s) as [[Heq _] | Heq]; [by left | by right].
  - split.
    + intros Hidem (base & ->).
      change "//" with ("/" +:+ "/") in Hidem. rewrite <- append_assoc in Hidem.
      rewrite !replace_trailing_slash_append in Hidem.
      by apply (length_not_self_slash base).
    + intros Hno. destruct (replace_trailing_slash_cases s) as [[Heq _] | Heq].
      * by rewrite !Heq.
      * destruct (replace_trailing_slash_cases (JS.replace_trailing_slash s))
          as [[Heq' _] | Heq']; [done |].
        destruct Hno. exists (JS.replace_trailing_slash (JS.replace_trailing_slash s)).
        change "//" with ("/" +:+ "/"). rewrite <- append_assoc, <- Heq'. exact Heq.
Qed.

(** X2: the display of a non-empty key is never shorter than the key and
    at least five code units long; it is as long as the key from eight
    code units on, and eight code units long for keys of four to eight. *)
Theorem mask_display_length (key : string) :
  key ≠ "" ->
  JS.length (maskKeyForDisplay key) =
    Nat.max (JS.length key - 4) 4 + Nat.min (JS.length key) 4 ∧
  JS.length key <= JS.length (maskKeyForDisplay key) ∧
  5 <= JS.length (maskKeyForDisplay key).
Proof.
  intros Hne.
  assert (JS.length key ≠ 0) as Hpos by (intros H0; by apply length_zero in H0).
  assert (JS.length (maskKeyForDisplay key) =
          Nat.max (JS.length key - 4) 4 + Nat.min (JS.length key) 4) as Hlen.
  { destruct (decide (JS.length key <= 4)) as [Hle|Hgt].
    - rewrite mask_short, length_append by done. simpl. lia.
    - destruct (split_last 4 key) as (hidden & Hkey & Hvis); [lia |].
      rewrite Hkey at 1. rewrite mask_append, length_append, length_repeat_star by done.
      apply (f_equal JS.length) in Hkey. rewrite length_append in Hkey. lia. }
  rewrite Hlen. lia.
Qed.

Lemma mask_display_length_witness :
  "sk-12" ≠ "" ∧ JS.length (maskKeyForDisplay "sk-12") = 8.
Proof.
  assert ("sk-12" ≠ "") as Hne by discriminate.
  split; [exact Hne |]. exact (proj1 (mask_display_length "sk-12" Hne)).
Defined.

(** X3: a key of at most four code units is displayed whole, behind four
    stars: nothing of it is hidden. *)
Theorem mask_shows_short_key_whole (key : string) :
  key ≠ "" ->
  JS.length key <= 4 ->
  maskKeyForDisplay key = "****" +:+ key ∧
  JS.slice_last (JS.length key) (maskKeyForDisplay key) = key.
Proof.
  intros Hne Hlen. rewrite mask_short by done. split; [done |].
  apply slice_last_append.
Qed.

Lemma mask_shows_short_key_whole_witness :
  "abc" ≠ "" ∧ JS.length "abc" <= 4 ∧ maskKeyForDisplay "abc" = "****abc".
Proof.
  assert ("abc" ≠ "") as Hne by discriminate.
  assert (JS.length "abc" <= 4) as Hlen by (simpl; lia).
  split_and!; [exact Hne | exact Hlen |].
  exact (proj1 (mask_shows_short_key_whole "abc" Hne Hlen)).
Defined.

(** X4: two keys of at least four code units have the same display
    exactly when their last four code units agree and their lengths agree
    or are both at most eight. *)
Theorem mask_display_equal_iff (key1 key2 : string) :
  4 <= JS.length key1 ->
  4 <= JS.length key2 ->
  (maskKeyForDisplay key1 = maskKeyForDisplay key2
   ↔ JS.slice_last 4 key1 = JS.slice_last 4 key2 ∧
     Nat.max (JS.length key1) 8 = Nat.max (JS.length key2) 8).
Proof.
  intros Hlen1 Hlen2.
  destruct (split_last 4 key1 Hlen1) as (hidden1 & Hkey1 & Hvis1).
  destruct (split_last 4 key2 Hlen2) as (hidden2 & Hkey2 & Hvis2).
  assert (JS.length key1 = JS.length hidden1 + 4) as Hl1.
  { apply (f_equal JS.length) in Hkey1. rewrite length_append in Hkey1. lia. }
  assert (JS.length key2 = JS.length hidden2 + 4) as Hl2.
  { apply (f_equal JS.length) in Hkey2. rewrite length_append in Hkey2. lia. }
  assert (maskKeyForDisplay key1 =
          JS.repeat "*" (Nat.max (JS.length hidden1) 4) +:+ JS.slice_last 4 key1) as ->
    by (rewrite Hkey1 at 1; by apply mask_append).
  assert (maskKeyForDisplay key2 =
          JS.repeat "*" (Nat.max (JS.length hidden2) 4) +:+ JS.slice_last 4 key2) as ->
    by (rewrite Hkey2 at 1; by apply mask_append).
  split.
  - intros Heq. apply repeat_star_inj in Heq as [Hn Hv]; [| lia]. split; [done | lia].
  - intros [-> Hmax]. do 2 f_equal. lia.
Qed.

Lemma mask_display_equal_iff_witness :
  4 <= JS.length "sk-AAAA7890" ∧ 4 <= JS.length "sk-BBBB7890" ∧
  maskKeyForDisplay "sk-AAAA7890" = maskKeyForDisplay "sk-BBBB7890".
Proof.
  assert (4 <= JS.length "sk-AAAA7890") as H1 by (simpl; lia).
  assert (4 <= JS.length "sk-BBBB7890") as H2 by (simpl; lia).
  split_and!; [exact H1 | exact H2 |].
  apply (proj2 (mask_display_equal_iff "sk-AAAA7890" "sk-BBBB7890" H1 H2)).
  split; reflexivity.
Defined.

(** ** More on [ensureOpenAIArrayLengths] *)

Section more_ensure.

Implicit Types st : State.

Lemma lookup_array_set_eq {A} (hole : A) (arr : list A) i v :
  array_set hole arr i v !! i = Some v.
Proof.
  unfold array_set. case_decide.
  - by apply list_lookup_insert_eq.
  - rewrite lookup_app_r by lia. rewrite lookup_app_r by (rewrite length_replicate; lia).
    rewrite length_replicate. by replace (i - length arr - (i - length arr)) with 0 by lia.
Qed.

(** Away from the written index an entry reads as before, a hole reading
    as [hole]. *)
Lemma lookup_array_set_ne {A} (hole : A) (arr : list A) i j v :
  i ≠ j -> default hole (array_set hole arr i v !! j) = default hole (arr !! j).
Proof.
  intros Hne. unfold array_set. case_decide.
  - by rewrite list_lookup_insert_ne.
  - destruct (decide (j < length arr)) as [Hlt|Hge].
    + by rewrite lookup_app_l.
    + rewrite lookup_app_r, (lookup_ge_None_2 arr j) by lia.
      destruct (decide (j - length arr < i - length arr)) as [Hin|Hout].
      * rewrite lookup_app_l by (by rewrite length_replicate).
        by rewrite lookup_replicate_2.
      * rewrite lookup_app_r by (rewrite length_replicate; lia).
        rewrite length_replicate.
        destruct (j - length arr - (i - length arr)) as [|k] eqn:Hk; [lia | done].
Qed.

(** The descriptor read at an index of a base URL shows the same after the
    third block of [ensureOpenAIArrayLengths]. *)
Lemma lookup_fit_metadata n arr idx :
  idx < n ->
  default defaultKeyDescriptor (mjoin (fit_metadata n arr !! idx)) =
  default defaultKeyDescriptor (mjoin (arr !! idx)).
Proof.
  intros Hidx. unfold fit_metadata. repeat case_decide.
  - by rewrite lookup_take_lt.
  - rewrite list_lookup_fmap. destruct (decide (idx < length arr)) as [Hlt|Hge].
    + rewrite lookup_app_l by done.
      destruct (lookup_lt_is_Some_2 arr idx Hlt) as [item ->]. by destruct item.
    + rewrite lookup_app_r, lookup_replicate_2 by lia.
      by rewrite (lookup_ge_None_2 arr idx) by lia.
  - rewrite list_lookup_fmap. by destruct (arr !! idx) as [[d|]|].
Qed.

Lemma fit_metadata_non_nullish n arr :
  length arr <= n -> Forall is_Some (fit_metadata n arr).
Proof.
  intros Hlen. unfold fit_metadata. rewrite decide_False by lia.
  case_decide; apply Forall_fmap, Forall_true; intros item; by eexists.
Qed.

Lemma fit_length_idemp {A} (filler : A) n (arr : list A) :
  fit_length filler n (fit_length filler n arr) = fit_length filler n arr.
Proof. apply fit_length_same, length_fit_length. Qed.

Lemma or_default_fixes arr :
  Forall is_Some arr -> or_default <$> arr = arr.
Proof.
  induction 1 as [|item arr [d ->] _ IH]; [done |]. rewrite fmap_cons. by f_equal.
Qed.

Lemma fit_metadata_again n arr :
  fit_metadata n (fit_metadata n arr) = or_default <$> fit_metadata n arr.
Proof. apply fit_metadata_same, length_fit_metadata. Qed.

Lemma ensure_keys st :
  OPENAI_API_KEYS (ensureOpenAIArrayLengths st) =
    fit_length "" (length (OPENAI_API_BASE_URLS st)) (OPENAI_API_KEYS st).
Proof. reflexivity. Qed.

Lemma ensure_keep st :
  OPENAI_API_KEY_KEEP (ensureOpenAIArrayLengths st) =
    fit_length false (length (OPENAI_API_BASE_URLS st)) (OPENAI_API_KEY_KEEP st).
Proof. reflexivity. Qed.

Lemma ensure_metadata st :
  OPENAI_API_KEY_METADATA (ensureOpenAIArrayLengths st) =
    fit_metadata (length (OPENAI_API_BASE_URLS st)) (OPENAI_API_KEY_METADATA st).
Proof. reflexivity. Qed.

(** Two states with the same bindings are the same state. *)
Lemma State_eq st1 st2 :
  OLLAMA_BASE_URLS st1 = OLLAMA_BASE_URLS st2 ->
  OLLAMA_API_CONFIGS st1 = OLLAMA_API_CONFIGS st2 ->
  OPENAI_API_KEYS st1 = OPENAI_API_KEYS st2 ->
  OPENAI_API_KEY_KEEP st1 = OPENAI_API_KEY_KEEP st2 ->
  OPENAI_API_KEY_METADATA st1 = OPENAI_API_KEY_METADATA st2 ->
  OPENAI_API_BASE_URLS st1 = OPENAI_API_BASE_URLS st2 ->
  OPENAI_API_CONFIGS st1 = OPENAI_API_CONFIGS st2 ->
  openAIKeySecurityMeta st1 = openAIKeySecurityMeta st2 ->
  allowedOpenAIBaseUrls st1 = allowedOpenAIBaseUrls st2 ->
  ENABLE_OPENAI_API st1 = ENABLE_OPENAI_API st2 ->
  ENABLE_OLLAMA_API st1 = ENABLE_OLLAMA_API st2 ->
  st1 = st2.
Proof. destruct st1, st2. simpl. by intros -> -> -> -> -> -> -> -> -> -> ->. Qed.

End more_ensure.

(** X5: [ensureOpenAIArrayLengths] changes nothing that a row of a base
    URL shows or submits: the base URLs and config objects stay, and at
    every index of a base URL the key input, the keep-flag, the masked
    display and the payload entry are as before, a missing key input
    becoming [''] and a missing keep-flag [false]. *)
Theorem ensure_keeps_rows (st : State) (idx : nat) :
  idx < length (OPENAI_API_BASE_URLS st) ->
  let st' := ensureOpenAIArrayLengths st in
  OPENAI_API_BASE_URLS st' = OPENAI_API_BASE_URLS st ∧
  OPENAI_API_CONFIGS st' = OPENAI_API_CONFIGS st ∧
  keyValueProp st' idx = Some (default "" (keyValueProp st idx)) ∧
  hasStoredKeyProp st' idx = Some (truthy_bool (hasStoredKeyProp st idx)) ∧
  maskedKeyProp st' idx = maskedKeyProp st idx ∧
  keyPayload st' idx = keyPayload st idx.
Proof.
  intros Hidx st'. split_and!; try reflexivity.
  - apply lookup_fit_length. exact Hidx.
  - apply (lookup_fit_length false). exact Hidx.
  - unfold maskedKeyProp, st', ensureOpenAIArrayLengths. simpl.
    pose proof (lookup_fit_metadata (length (OPENAI_API_BASE_URLS st))
                  (OPENAI_API_KEY_METADATA st) idx Hidx) as Hd.
    destruct (mjoin (fit_metadata _ _ !! idx)) as [d1|],
             (mjoin (OPENAI_API_KEY_METADATA st !! idx)) as [d2|];
      simpl in *; by subst.
  - by apply keyPayload_ensure.
Qed.

Lemma ensure_keeps_rows_witness :
  0 < length (OPENAI_API_BASE_URLS initialState) ∧
  hasStoredKeyProp initialState 0 = None ∧
  hasStoredKeyProp (ensureOpenAIArrayLengths initialState) 0 = Some false.
Proof.
  assert (0 < length (OPENAI_API_BASE_URLS initialState)) as Hidx by (simpl; lia).
  split_and!; [exact Hidx | reflexivity |].
  exact (proj1 (proj2 (proj2 (proj2 (ensure_keeps_rows initialState 0 Hidx))))).
Defined.

(** X6: when there are no more key descriptors than base URLs,
    [ensureOpenAIArrayLengths] leaves no nullish descriptor; when there are
    more, it only cuts the list, and a nullish descriptor below the cut
    stays. *)
Theorem ensure_descriptors (st : State) :
  let n := length (OPENAI_API_BASE_URLS st) in
  let st' := ensureOpenAIArrayLengths st in
  (length (OPENAI_API_KEY_METADATA st) <= n ->
   Forall is_Some (OPENAI_API_KEY_METADATA st')) ∧
  (n < length (OPENAI_API_KEY_METADATA st) ->
   OPENAI_API_KEY_METADATA st' = take n (OPENAI_API_KEY_METADATA st)).
Proof.
  intros n st'. split; intros Hlen.
  - by apply fit_metadata_non_nullish.
  - unfold st', ensureOpenAIArrayLengths. simpl. unfold fit_metadata.
    by rewrite decide_True.
Qed.

Lemma ensure_descriptors_witness :
  length (OPENAI_API_KEY_METADATA initialState)
    <= length (OPENAI_API_BASE_URLS initialState) ∧
  Forall is_Some (OPENAI_API_KEY_METADATA (ensureOpenAIArrayLengths initialState)).
Proof.
  assert (length (OPENAI_API_KEY_METADATA initialState)
            <= length (OPENAI_API_BASE_URLS initialState)) as Hlen by (simpl; lia).
  split; [exact Hlen |]. exact (proj1 (ensure_descriptors initialState) Hlen).
Defined.

(** X7: calling [ensureOpenAIArrayLengths] a third time changes nothing,
    and a second time changes nothing unless the first call had to cut the
    descriptor list. *)
Theorem ensure_settles (st : State) :
  ensureOpenAIArrayLengths (ensureOpenAIArrayLengths (ensureOpenAIArrayLengths st)) =
    ensureOpenAIArrayLengths (ensureOpenAIArrayLengths st) ∧
  (length (OPENAI_API_KEY_METADATA st) <= length (OPENAI_API_BASE_URLS st) ->
   ensureOpenAIArrayLengths (ensureOpenAIArrayLengths st) = ensureOpenAIArrayLengths st).
Proof.
  split.
  - apply State_eq; try reflexivity.
    + by rewrite !ensure_keys, !ensure_urls, !fit_length_idemp.
    + by rewrite !ensure_keep, !ensure_urls, !fit_length_idemp.
    + rewrite !ensure_metadata, !ensure_urls, !fit_metadata_again.
      by rewrite or_default_idemp.
  - intros Hlen. apply State_eq; try reflexivity.
    + by rewrite !ensure_keys, !ensure_urls, !fit_length_idemp.
    + by rewrite !ensure_keep, !ensure_urls, !fit_length_idemp.
    + rewrite !ensure_metadata, !ensure_urls, fit_metadata_again.
      by rewrite or_default_fixes by (by apply fit_metadata_non_nullish).
Qed.

Lemma ensure_settles_witness :
  length (OPENAI_API_KEY_METADATA exampleState)
    <= length (OPENAI_API_BASE_URLS exampleState) ∧
  ensureOpenAIArrayLengths (ensureOpenAIArrayLengths exampleState) =
    ensureOpenAIArrayLengths exampleState.
Proof.
  assert (length (OPENAI_API_KEY_METADATA exampleState)
            <= length (OPENAI_API_BASE_URLS exampleState)) as Hlen by (simpl; lia).
  split; [exact Hlen |]. exact (proj2 (ensure_settles exampleState) Hlen).
Defined.

(** ** What the handlers send *)

Section handler_tail.

Implicit Types st : State.

(** Every handler of the OpenAI rows ends with
    [ensureOpenAIArrayLengths(); updateOpenAIHandler()]. With the API
    switch set, this sends the lists as the handler left them, the base
    URLs without trailing slash. *)
Lemma handler_tail st enable :
  ENABLE_OPENAI_API st = Some enable ->
  let n := length (OPENAI_API_BASE_URLS st) in
  let out := updateOpenAIHandler (ensureOpenAIArrayLengths st) in
  ∃ req,
    snd out = Some req ∧
    req_OPENAI_API_BASE_URLS req = JS.replace_trailing_slash <$> OPENAI_API_BASE_URLS st ∧
    req_OPENAI_API_KEYS req = keyPayloads st ∧
    req_OPENAI_API_CONFIGS req = OPENAI_API_CONFIGS st ∧
    OPENAI_API_BASE_URLS (fst out) = JS.replace_trailing_slash <$> OPENAI_API_BASE_URLS st ∧
    OPENAI_API_CONFIGS (fst out) = OPENAI_API_CONFIGS st ∧
    OPENAI_API_KEYS (fst out) = fit_length "" n (OPENAI_API_KEYS st) ∧
    OPENAI_API_KEY_KEEP (fst out) = fit_length false n (OPENAI_API_KEY_KEEP st) ∧
    ∀ idx, idx < n -> maskedKeyProp (fst out) idx = maskedKeyProp st idx.
Proof.
  intros Hen n out.
  assert (ENABLE_OPENAI_API (ensureOpenAIArrayLengths st) = Some enable) as Hen'
    by exact Hen.
  subst out. unfold updateOpenAIHandler. rewrite Hen'.
  set (s1 := ensureOpenAIArrayLengths st) in *.
  set (s2 := set_OPENAI_API_BASE_URLS
               (JS.replace_trailing_slash <$> OPENAI_API_BASE_URLS s1) s1) in *.
  assert (OPENAI_API_BASE_URLS s2 = JS.replace_trailing_slash <$> OPENAI_API_BASE_URLS st)
    as Hurls by reflexivity.
  assert (length (OPENAI_API_BASE_URLS s2) = n) as Hn
    by (rewrite Hurls; apply length_fmap).
  assert (OPENAI_API_KEYS s2 = fit_length "" n (OPENAI_API_KEYS st)) as Hkeys
    by reflexivity.
  assert (OPENAI_API_KEY_KEEP s2 = fit_length false n (OPENAI_API_KEY_KEEP st)) as Hkeep
    by reflexivity.
  assert (OPENAI_API_KEY_METADATA s2 = fit_metadata n (OPENAI_API_KEY_METADATA st)) as Hmeta
    by reflexivity.
  assert (OPENAI_API_CONFIGS s2 = OPENAI_API_CONFIGS st) as Hcfg by reflexivity.
  assert (∀ idx, idx < n -> keyPayload s2 idx = keyPayload st idx) as Hpay.
  { intros idx Hidx. unfold keyPayload. rewrite Hkeys, Hkeep.
    rewrite !lookup_fit_length by done.
    by destruct (OPENAI_API_KEY_KEEP st !! idx), (OPENAI_API_KEYS st !! idx). }
  clearbody s2. clear s1 Hen'.
  exists {| req_ENABLE_OPENAI_API := enable;
            req_OPENAI_API_BASE_URLS := OPENAI_API_BASE_URLS (ensureOpenAIArrayLengths s2);
            req_OPENAI_API_KEYS := keyPayloads (ensureOpenAIArrayLengths s2);
            req_OPENAI_API_CONFIGS := OPENAI_API_CONFIGS (ensureOpenAIArrayLengths s2) |}.
  cbn [fst snd req_OPENAI_API_BASE_URLS req_OPENAI_API_KEYS req_OPENAI_API_CONFIGS].
  rewrite ensure_urls, ensure_configs, ensure_keys, ensure_keep, Hurls, Hcfg, Hkeys, Hkeep.
  rewrite length_fmap. fold n. rewrite !fit_length_idemp.
  split_and!; try reflexivity.
  - unfold keyPayloads. rewrite ensure_urls, Hurls. apply list_eq. intros idx.
    rewrite !list_lookup_imap, list_lookup_fmap.
    destruct (OPENAI_API_BASE_URLS st !! idx) as [u|] eqn:Hu; [|done]. simpl. f_equal.
    assert (idx < n) as Hidx by (by eapply lookup_lt_Some).
    rewrite keyPayload_ensure by (by rewrite Hn). by apply Hpay.
  - intros idx Hidx. unfold maskedKeyProp. rewrite ensure_metadata, Hn, Hmeta.
    rewrite fit_metadata_again, list_lookup_fmap.
    pose proof (lookup_fit_metadata n (OPENAI_API_KEY_METADATA st) idx Hidx) as Hd.
    destruct (fit_metadata n (OPENAI_API_KEY_METADATA st) !! idx) as [[d1|]|],
             (mjoin (OPENAI_API_KEY_METADATA st !! idx)) as [d2|];
      simpl in *; by subst.
Qed.

(** The lists as the statements of [onSubmit] leave them, before the two
    closing calls. *)
Lemma onSubmit_lists idx connection st :
  idx < length (OPENAI_API_BASE_URLS st) ->
  ∃ s,
    onSubmit_OpenAIConnection idx connection st
      = Some (updateOpenAIHandler (ensureOpenAIArrayLengths s)) ∧
    ENABLE_OPENAI_API s = ENABLE_OPENAI_API st ∧
    OPENAI_API_BASE_URLS s = <[idx := url connection]> (OPENAI_API_BASE_URLS st) ∧
    OPENAI_API_CONFIGS s = obj_set (OPENAI_API_CONFIGS st) idx (config connection) ∧
    OPENAI_API_KEYS s =
      array_set "" (OPENAI_API_KEYS st) idx
        (if truthy_bool (keyChanged connection) then default "" (key connection) else "") ∧
    OPENAI_API_KEY_KEEP s =
      array_set false (OPENAI_API_KEY_KEEP st) idx
        (if truthy_bool (keyChanged connection) then false
         else default false (hasStoredKey connection)) ∧
    OPENAI_API_KEY_METADATA s =
      array_set None (OPENAI_API_KEY_METADATA st) idx
        (Some (if truthy_bool (keyChanged connection)
               then typedKeyDescriptor (key connection)
               else {| has_value := default false (hasStoredKey connection);
                       masked := maskedKeyProp st idx;
                       fingerprint :=
                         fingerprint (default defaultKeyDescriptor
                                        (mjoin (OPENAI_API_KEY_METADATA st !! idx))) |})).
Proof.
  intros Hidx. unfold onSubmit_OpenAIConnection. rewrite decide_True by done.
  destruct (truthy_bool (keyChanged connection)).
  - eexists. split; [reflexivity |]. by split_and!.
  - eexists. split; [reflexivity |]. split_and!; try reflexivity.
    cbn [OPENAI_API_KEY_METADATA set_OPENAI_API_KEY_METADATA set_OPENAI_API_KEY_KEEP
         set_OPENAI_API_KEYS set_OPENAI_API_CONFIGS set_OPENAI_API_BASE_URLS].
    unfold maskedKeyProp.
    by destruct (mjoin (OPENAI_API_KEY_METADATA st !! idx)).
Qed.

Lemma mjoin_array_set_ne {A} (arr : list (option A)) i j v :
  i ≠ j -> mjoin (array_set None arr i v !! j) = mjoin (arr !! j).
Proof.
  intros Hne. pose proof (lookup_array_set_ne None arr i j v Hne) as Hd.
  by destruct (array_set None arr i v !! j) as [[?|]|], (arr !! j) as [[?|]|].
Qed.

End handler_tail.

(** X8: submitting a row whose key was changed sends the typed key for
    that index, [{ value: key }] (the empty string when the field was
    cleared), with the base URL without trailing slash; the row then holds
    the typed key with the keep-flag off, shows the mask computed from the
    typed key, and has the submitted config object. *)
Theorem update_sends_changed_key (st : State) (enable : bool) (idx : nat)
    (connection : Connection) :
  ENABLE_OPENAI_API st = Some enable ->
  idx < length (OPENAI_API_BASE_URLS st) ->
  truthy_bool (keyChanged connection) = true ->
  ∃ out req,
    onSubmit_OpenAIConnection idx connection st = Some out ∧
    snd out = Some req ∧
    req_OPENAI_API_BASE_URLS req !! idx = Some (JS.replace_trailing_slash (url connection)) ∧
    req_OPENAI_API_KEYS req !! idx = Some (KeyValue (default "" (key connection))) ∧
    keyValueProp (fst out) idx = Some (default "" (key connection)) ∧
    hasStoredKeyProp (fst out) idx = Some false ∧
    maskedKeyProp (fst out) idx =
      (if truthy_str (key connection)
       then maskKeyForDisplay (default "" (key connection)) else "") ∧
    OPENAI_API_CONFIGS (fst out) !! idx = config connection.
Proof.
  intros Hen Hidx Hchanged.
  destruct (onSubmit_lists idx connection st Hidx)
    as (s & Hon & Hens & Hurls & Hcfg & Hkeys & Hkeep & Hmeta).
  rewrite Hchanged in Hkeys, Hkeep, Hmeta.
  destruct (handler_tail s enable) as (req & Hreq & HrU & HrK & _ & _ & HC & HK & HP & HM);
    [by rewrite Hens |].
  assert (length (OPENAI_API_BASE_URLS s) = length (OPENAI_API_BASE_URLS st)) as Hn
    by (by rewrite Hurls, length_insert).
  rewrite Hn in HK, HP, HM.
  exists (updateOpenAIHandler (ensureOpenAIArrayLengths s)), req.
  generalize dependent (updateOpenAIHandler (ensureOpenAIArrayLengths s)).
  intros out Hon Hreq HC HK HP HM.
  split_and!; [done | done | ..].
  - rewrite HrU, list_lookup_fmap, Hurls, list_lookup_insert_eq by done. done.
  - rewrite HrK. unfold keyPayloads. rewrite list_lookup_imap, Hurls.
    rewrite list_lookup_insert_eq by done. simpl.
    unfold keyPayload. by rewrite Hkeep, Hkeys, !lookup_array_set_eq.
  - unfold keyValueProp. rewrite HK, lookup_fit_length by done.
    by rewrite Hkeys, lookup_array_set_eq.
  - unfold hasStoredKeyProp. rewrite HP, lookup_fit_length by done.
    by rewrite Hkeep, lookup_array_set_eq.
  - rewrite HM by done. unfold maskedKeyProp. rewrite Hmeta, lookup_array_set_eq.
    simpl. unfold typedKeyDescriptor. by destruct (truthy_str (key connection)).
  - rewrite HC, Hcfg. apply lookup_obj_set_eq.
Qed.

Lemma update_sends_changed_key_witness :
  ENABLE_OPENAI_API exampleState = Some true ∧
  0 < length (OPENAI_API_BASE_URLS exampleState) ∧
  truthy_bool (keyChanged exampleConnection) = true ∧
  ∃ out req,
    onSubmit_OpenAIConnection 0 exampleConnection exampleState = Some out ∧
    snd out = Some req ∧
    req_OPENAI_API_KEYS req !! 0 = Some (KeyValue "sk-1234567890").
Proof.
  assert (0 < length (OPENAI_API_BASE_URLS exampleState)) as Hidx by (simpl; lia).
  split_and!; [reflexivity | exact Hidx | reflexivity |].
  destruct (update_sends_changed_key exampleState true 0 exampleConnection
              eq_refl Hidx eq_refl) as (out & req & Hout & Hreq & _ & Hkey & _).
  exists out, req. split_and!; [exact Hout | exact Hreq | exact Hkey].
Defined.

(** X9: submitting a row whose key was not changed never sends a key the
    connection object may carry: the entry sent is [{ keep: true }] when
    the row has a stored key and [{ value: '' }] otherwise; the key input
    of the row is emptied and its masked display stays. *)
Theorem update_without_key_change (st : State) (enable : bool) (idx : nat)
    (connection : Connection) :
  ENABLE_OPENAI_API st = Some enable ->
  idx < length (OPENAI_API_BASE_URLS st) ->
  truthy_bool (keyChanged connection) = false ->
  ∃ out req,
    onSubmit_OpenAIConnection idx connection st = Some out ∧
    snd out = Some req ∧
    req_OPENAI_API_KEYS req !! idx =
      Some (if default false (hasStoredKey connection) then KeepKey else KeyValue "") ∧
    keyValueProp (fst out) idx = Some "" ∧
    hasStoredKeyProp (fst out) idx = Some (default false (hasStoredKey connection)) ∧
    maskedKeyProp (fst out) idx = maskedKeyProp st idx.
Proof.
  intros Hen Hidx Hsame.
  destruct (onSubmit_lists idx connection st Hidx)
    as (s & Hon & Hens & Hurls & Hcfg & Hkeys & Hkeep & Hmeta).
  rewrite Hsame in Hkeys, Hkeep, Hmeta.
  destruct (handler_tail s enable) as (req & Hreq & HrU & HrK & _ & _ & HC & HK & HP & HM);
    [by rewrite Hens |].
  assert (length (OPENAI_API_BASE_URLS s) = length (OPENAI_API_BASE_URLS st)) as Hn
    by (by rewrite Hurls, length_insert).
  rewrite Hn in HK, HP, HM.
  exists (updateOpenAIHandler (ensureOpenAIArrayLengths s)), req.
  generalize dependent (updateOpenAIHandler (ensureOpenAIArrayLengths s)).
  intros out Hon Hreq HC HK HP HM.
  split_and!; [done | done | ..].
  - rewrite HrK. unfold keyPayloads. rewrite list_lookup_imap, Hurls.
    rewrite list_lookup_insert_eq by done. simpl.
    unfold keyPayload. rewrite Hkeep, Hkeys, !lookup_array_set_eq. simpl.
    by destruct (default false (hasStoredKey connection)).
  - unfold keyValueProp. rewrite HK, lookup_fit_length by done.
    by rewrite Hkeys, lookup_array_set_eq.
  - unfold hasStoredKeyProp. rewrite HP, lookup_fit_length by done.
    by rewrite Hkeep, lookup_array_set_eq.
  - rewrite HM by done. unfold maskedKeyProp at 1. by rewrite Hmeta, lookup_array_set_eq.
Qed.

Lemma update_without_key_change_witness :
  ENABLE_OPENAI_API exampleState = Some true ∧
  0 < length (OPENAI_API_BASE_URLS exampleState) ∧
  truthy_bool (keyChanged conflictingConnection) = false ∧
  ∃ out req,
    onSubmit_OpenAIConnection 0 conflictingConnection exampleState = Some out ∧
    snd out = Some req ∧
    req_OPENAI_API_KEYS req !! 0 = Some KeepKey ∧
    keyValueProp (fst out) 0 = Some "".
Proof.
  assert (0 < length (OPENAI_API_BASE_URLS exampleState)) as Hidx by (simpl; lia).
  split_and!; [reflexivity | exact Hidx | reflexivity |].
  destruct (update_without_key_change exampleState true 0 conflictingConnection
              eq_refl Hidx eq_refl) as (out & req & Hout & Hreq & Hkey & Hinput & _).
  exists out, req. split_and!; [exact Hout | exact Hreq | exact Hkey | exact Hinput].
Defined.

(** X10: submitting one row leaves the other rows alone: for every other
    index of a base URL the entry sent, the masked display and the config
    object are those of the state before, and the base URL sent is the
    old one without trailing slash. *)
Theorem update_leaves_other_rows (st : State) (enable : bool) (idx j : nat)
    (connection : Connection) :
  ENABLE_OPENAI_API st = Some enable ->
  idx < length (OPENAI_API_BASE_URLS st) ->
  j < length (OPENAI_API_BASE_URLS st) ->
  idx ≠ j ->
  ∃ out req,
    onSubmit_OpenAIConnection idx connection st = Some out ∧
    snd out = Some req ∧
    req_OPENAI_API_BASE_URLS req !! j =
      JS.replace_trailing_slash <$> OPENAI_API_BASE_URLS st !! j ∧
    req_OPENAI_API_KEYS req !! j = Some (keyPayload st j) ∧
    maskedKeyProp (fst out) j = maskedKeyProp st j ∧
    OPENAI_API_CONFIGS (fst out) !! j = OPENAI_API_CONFIGS st !! j.
Proof.
  intros Hen Hidx Hj Hne.
  destruct (onSubmit_lists idx connection st Hidx)
    as (s & Hon & Hens & Hurls & Hcfg & Hkeys & Hkeep & Hmeta).
  destruct (handler_tail s enable) as (req & Hreq & HrU & HrK & _ & _ & HC & HK & HP & HM);
    [by rewrite Hens |].
  assert (length (OPENAI_API_BASE_URLS s) = length (OPENAI_API_BASE_URLS st)) as Hn
    by (by rewrite Hurls, length_insert).
  rewrite Hn in HK, HP, HM.
  exists (updateOpenAIHandler (ensureOpenAIArrayLengths s)), req.
  generalize dependent (updateOpenAIHandler (ensureOpenAIArrayLengths s)).
  intros out Hon Hreq HC HK HP HM.
  split_and!; [done | done | ..].
  - by rewrite HrU, !list_lookup_fmap, Hurls, list_lookup_insert_ne.
  - rewrite HrK. unfold keyPayloads. rewrite list_lookup_imap, Hurls.
    rewrite list_lookup_insert_ne by done.
    destruct (lookup_lt_is_Some_2 _ _ Hj) as [u ->]. simpl. f_equal.
    unfold keyPayload. rewrite Hkeep, Hkeys. unfold truthy_bool.
    by rewrite !lookup_array_set_ne.
  - rewrite HM by done. unfold maskedKeyProp. by rewrite Hmeta, mjoin_array_set_ne.
  - rewrite HC, Hcfg, lookup_obj_set. by rewrite decide_False.
Qed.

Lemma update_leaves_other_rows_witness :
  ENABLE_OPENAI_API exampleThree = Some true ∧
  0 < length (OPENAI_API_BASE_URLS exampleThree) ∧
  1 < length (OPENAI_API_BASE_URLS exampleThree) ∧
  0 ≠ 1 ∧
  ∃ out req,
    onSubmit_OpenAIConnection 0 exampleConnection exampleThree = Some out ∧
    snd out = Some req ∧
    req_OPENAI_API_KEYS req !! 1 = Some (KeyValue "sk-typed").
Proof.
  assert (0 < length (OPENAI_API_BASE_URLS exampleThree)) as H0 by (simpl; lia).
  assert (1 < length (OPENAI_API_BASE_URLS exampleThree)) as H1 by (simpl; lia).
  assert (0 ≠ 1) as Hne by lia.
  split_and!; [reflexivity | exact H0 | exact H1 | exact Hne |].
  destruct (update_leaves_other_rows exampleThree true 0 1 exampleConnection
              eq_refl H0 H1 Hne) as (out & req & Hout & Hreq & _ & Hkey & _).
  exists out, req. split_and!; [exact Hout | exact Hreq | exact Hkey].
Defined.

Section more_handlers.

Implicit Types st : State.

(** The lists as the statements of [addOpenAIConnectionHandler] leave
    them, before the two closing calls. *)
Lemma add_lists connection st :
  ∃ s,
    addOpenAIConnectionHandler connection st
      = updateOpenAIHandler (ensureOpenAIArrayLengths s) ∧
    ENABLE_OPENAI_API s = ENABLE_OPENAI_API st ∧
    OPENAI_API_BASE_URLS s = OPENAI_API_BASE_URLS st ++ [url connection] ∧
    OPENAI_API_CONFIGS s =
      obj_set (OPENAI_API_CONFIGS st) (length (OPENAI_API_BASE_URLS st)) (config connection) ∧
    OPENAI_API_KEYS s = OPENAI_API_KEYS st ++ [default "" (key connection)] ∧
    OPENAI_API_KEY_KEEP s =
      OPENAI_API_KEY_KEEP st ++
        [truthy_bool (hasStoredKey connection) && negb (truthy_bool (keyChanged connection))] ∧
    OPENAI_API_KEY_METADATA s =
      OPENAI_API_KEY_METADATA st ++ [Some (typedKeyDescriptor (key connection))].
Proof.
  eexists. split; [reflexivity |]. split_and!; try reflexivity.
  cbn [OPENAI_API_CONFIGS set_OPENAI_API_CONFIGS OPENAI_API_BASE_URLS
       set_OPENAI_API_KEY_METADATA set_OPENAI_API_KEY_KEEP set_OPENAI_API_KEYS
       set_OPENAI_API_BASE_URLS].
  do 2 f_equal. rewrite length_app. simpl. lia.
Qed.

(** The lists as the statements of [onDelete] leave them. *)
Lemma delete_lists idx st :
  ∃ s,
    deleteOpenAIConnection idx st = ensureOpenAIArrayLengths s ∧
    ENABLE_OPENAI_API s = ENABLE_OPENAI_API st ∧
    OPENAI_API_BASE_URLS s = delete idx (OPENAI_API_BASE_URLS st) ∧
    OPENAI_API_CONFIGS s =
      reindexConfigs idx (delete idx (OPENAI_API_BASE_URLS st)) (OPENAI_API_CONFIGS st) ∧
    OPENAI_API_KEYS s = delete idx (OPENAI_API_KEYS st) ∧
    OPENAI_API_KEY_KEEP s = delete idx (OPENAI_API_KEY_KEEP st) ∧
    OPENAI_API_KEY_METADATA s = delete idx (OPENAI_API_KEY_METADATA st).
Proof.
  eexists. split; [reflexivity |].
  cbn [ENABLE_OPENAI_API OPENAI_API_BASE_URLS OPENAI_API_CONFIGS OPENAI_API_KEYS
       OPENAI_API_KEY_KEEP OPENAI_API_KEY_METADATA
       set_OPENAI_API_CONFIGS set_OPENAI_API_KEY_METADATA set_OPENAI_API_KEY_KEEP
       set_OPENAI_API_KEYS set_OPENAI_API_BASE_URLS].
  by rewrite !array_filter_not_index.
Qed.

Lemma updateOpenAIHandler_enable st :
  ENABLE_OPENAI_API (fst (updateOpenAIHandler st)) = ENABLE_OPENAI_API st.
Proof. unfold updateOpenAIHandler. by destruct (ENABLE_OPENAI_API st) eqn:Hen. Qed.

Lemma maskedKeyProp_ensure st idx :
  idx < length (OPENAI_API_BASE_URLS st) ->
  maskedKeyProp (ensureOpenAIArrayLengths st) idx = maskedKeyProp st idx.
Proof.
  intros Hidx. unfold maskedKeyProp. rewrite ensure_metadata.
  pose proof (lookup_fit_metadata (length (OPENAI_API_BASE_URLS st))
                (OPENAI_API_KEY_METADATA st) idx Hidx) as Hd.
  destruct (mjoin (fit_metadata _ _ !! idx)) as [d1|],
           (mjoin (OPENAI_API_KEY_METADATA st !! idx)) as [d2|];
    simpl in *; by subst.
Qed.

(** The payload entries of a list without its entry [idx]. *)
Lemma keyPayloads_delete idx st s :
  OPENAI_API_BASE_URLS s = delete idx (OPENAI_API_BASE_URLS st) ->
  OPENAI_API_KEYS s = delete idx (OPENAI_API_KEYS st) ->
  OPENAI_API_KEY_KEEP s = delete idx (OPENAI_API_KEY_KEEP st) ->
  keyPayloads s = delete idx (keyPayloads st).
Proof.
  intros Hurls Hkeys Hkeep. apply list_eq. intros j. unfold keyPayloads.
  rewrite list_lookup_delete, !list_lookup_imap, Hurls, list_lookup_delete.
  unfold keyPayload. rewrite Hkeys, Hkeep, !list_lookup_delete. done.
Qed.

End more_handlers.

(** X11: adding a connection to equally long lists appends one entry to
    what is sent and leaves the entries of the stored connections: the
    base URLs sent are the old ones and the new one, without trailing
    slash, and the key payloads are the old ones followed by
    [{ keep: true }] when the connection object names a stored key it did
    not change, and by [{ value: key }] otherwise. *)
Theorem add_appends_one_entry (st : State) (enable : bool) (connection : Connection) :
  ENABLE_OPENAI_API st = Some enable ->
  aligned st ->
  ∃ req,
    snd (addOpenAIConnectionHandler connection st) = Some req ∧
    req_OPENAI_API_BASE_URLS req =
      (JS.replace_trailing_slash <$> OPENAI_API_BASE_URLS st)
        ++ [JS.replace_trailing_slash (url connection)] ∧
    req_OPENAI_API_KEYS req =
      keyPayloads st ++
        [if truthy_bool (hasStoredKey connection) && negb (truthy_bool (keyChanged connection))
         then KeepKey else KeyValue (default "" (key connection))].
Proof.
  intros Hen (Hk & Hp & Hm).
  destruct (add_lists connection st) as (s & Hadd & Hens & Hurls & Hcfg & Hkeys & Hkeep & Hmeta).
  destruct (handler_tail s enable) as (req & Hreq & HrU & HrK & _); [by rewrite Hens |].
  exists req. rewrite Hadd. split_and!; [done | |].
  - by rewrite HrU, Hurls, fmap_app.
  - rewrite HrK. unfold keyPayloads. rewrite Hurls, imap_app. f_equal.
    + apply imap_ext. intros i u Hu. apply lookup_lt_Some in Hu.
      unfold keyPayload. rewrite Hkeys, Hkeep. by rewrite !lookup_app_l by lia.
    + simpl. unfold keyPayload. rewrite Hkeys, Hkeep, Nat.add_0_r.
      rewrite !lookup_app_r by lia. rewrite Hk, Hp, Nat.sub_diag. simpl.
      by destruct (truthy_bool (hasStoredKey connection) &&
                   negb (truthy_bool (keyChanged connection))).
Qed.

Lemma add_appends_one_entry_witness :
  ENABLE_OPENAI_API exampleState = Some true ∧
  aligned exampleState ∧
  ∃ req,
    snd (addOpenAIConnectionHandler exampleConnection exampleState) = Some req ∧
    req_OPENAI_API_KEYS req = [KeepKey; KeyValue "sk-1234567890"].
Proof.
  assert (aligned exampleState) as Hal by (repeat split).
  split_and!; [reflexivity | exact Hal |].
  destruct (add_appends_one_entry exampleState true exampleConnection eq_refl Hal)
    as (req & Hreq & _ & Hkeys).
  exists req. split; [exact Hreq | exact Hkeys].
Defined.

(** X12: deleting a row sends the lists without that row: the key
    payloads sent are those a save would have sent before, without the
    entry of the deleted index, and the base URLs are the remaining ones
    without trailing slash. *)
Theorem delete_sends_remaining_entries (st : State) (enable : bool) (idx : nat) :
  ENABLE_OPENAI_API st = Some enable ->
  ∃ req,
    snd (onDelete_OpenAIConnection idx st) = Some req ∧
    req_OPENAI_API_BASE_URLS req =
      JS.replace_trailing_slash <$> delete idx (OPENAI_API_BASE_URLS st) ∧
    req_OPENAI_API_KEYS req = delete idx (keyPayloads st) ∧
    length (req_OPENAI_API_KEYS req) = length (req_OPENAI_API_BASE_URLS req).
Proof.
  intros Hen.
  destruct (delete_lists idx st) as (s & Hdel & Hens & Hurls & Hcfg & Hkeys & Hkeep & Hmeta).
  destruct (handler_tail s enable) as (req & Hreq & HrU & HrK & _); [by rewrite Hens |].
  exists req. unfold onDelete_OpenAIConnection. rewrite Hdel.
  split_and!; [done | by rewrite HrU, Hurls | |].
  - rewrite HrK. by apply keyPayloads_delete.
  - rewrite HrK, HrU. unfold keyPayloads. by rewrite length_imap, length_fmap.
Qed.

Lemma delete_sends_remaining_entries_witness :
  ENABLE_OPENAI_API exampleThree = Some true ∧
  ∃ req,
    snd (onDelete_OpenAIConnection 1 exampleThree) = Some req ∧
    req_OPENAI_API_KEYS req = [KeepKey; KeepKey].
Proof.
  split; [reflexivity |].
  destruct (delete_sends_remaining_entries exampleThree true 1 eq_refl)
    as (req & Hreq & _ & Hkeys & _).
  exists req. split; [exact Hreq | exact Hkeys].
Defined.

Section more_response.

Implicit Types st : State.

(** The bindings as the continuation of [updateOpenAIHandler] assigns
    them, before its closing [ensureOpenAIArrayLengths]. *)
Lemma resume_lists r st :
  ∃ s,
    updateOpenAIHandler_resume (Some r) st = ensureOpenAIArrayLengths s ∧
    ENABLE_OPENAI_API s = ENABLE_OPENAI_API st ∧
    OPENAI_API_BASE_URLS s = res_OPENAI_API_BASE_URLS r ∧
    OPENAI_API_CONFIGS s = res_OPENAI_API_CONFIGS r ∧
    OPENAI_API_KEYS s = (fun _ => "") <$> res_OPENAI_API_BASE_URLS r ∧
    OPENAI_API_KEY_KEEP s = has_value_or_false <$> default [] (res_OPENAI_API_KEYS r) ∧
    OPENAI_API_KEY_METADATA s = default [] (res_OPENAI_API_KEYS r) ∧
    allowedOpenAIBaseUrls s =
      default (allowedOpenAIBaseUrls st) (res_OPENAI_ALLOWED_BASE_URLS r).
Proof. eexists. split; [reflexivity |]. by split_and!. Qed.

Lemma delete_last {A} (l : list A) k x : length l = k -> delete k (l ++ [x]) = l.
Proof. intros <-. by rewrite delete_middle, app_nil_r. Qed.

End more_response.

(** X13: a save that follows a response sends no key value: for every
    returned base URL the entry is [{ keep: true }] when the returned
    descriptor has a value, and [{ value: '' }] when it has none or is
    missing. *)
Theorem save_after_response_sends_no_key (st : State) (enable : bool)
    (r : OpenAIConfigResponse) :
  ENABLE_OPENAI_API st = Some enable ->
  let st' := updateOpenAIHandler_resume (Some r) st in
  let returned := default [] (res_OPENAI_API_KEYS r) in
  ∃ req,
    snd (updateOpenAIHandler st') = Some req ∧
    req_OPENAI_API_BASE_URLS req =
      JS.replace_trailing_slash <$> res_OPENAI_API_BASE_URLS r ∧
    length (req_OPENAI_API_KEYS req) = length (res_OPENAI_API_BASE_URLS r) ∧
    ∀ i,
      i < length (res_OPENAI_API_BASE_URLS r) ->
      req_OPENAI_API_KEYS req !! i =
        Some (if has_value_or_false (mjoin (returned !! i)) then KeepKey else KeyValue "").
Proof.
  intros Hen st' returned.
  destruct (resume_lists r st) as (s & Hres & Hens & Hurls & Hcfg & Hkeys & Hkeep & Hmeta & _).
  destruct (handler_tail s enable) as (req & Hreq & HrU & HrK & _); [by rewrite Hens |].
  exists req. subst st'. rewrite Hres. split_and!; [done | by rewrite HrU, Hurls | |].
  - rewrite HrK. unfold keyPayloads. by rewrite length_imap, Hurls.
  - intros i Hi. rewrite HrK. unfold keyPayloads. rewrite list_lookup_imap, Hurls.
    destruct (lookup_lt_is_Some_2 _ _ Hi) as [u Hu]. rewrite Hu. simpl. f_equal.
    unfold keyPayload. rewrite Hkeep, Hkeys, !list_lookup_fmap, Hu. simpl.
    fold returned. by destruct (returned !! i) as [[d|]|].
Qed.

Lemma save_after_response_sends_no_key_witness :
  ENABLE_OPENAI_API exampleState = Some true ∧
  ∃ req,
    snd (updateOpenAIHandler (updateOpenAIHandler_resume (Some exampleResponse) exampleState))
      = Some req ∧
    req_OPENAI_API_KEYS req !! 0 = Some KeepKey ∧
    req_OPENAI_API_KEYS req !! 1 = Some (KeyValue "").
Proof.
  split; [reflexivity |].
  destruct (save_after_response_sends_no_key exampleState true exampleResponse eq_refl)
    as (req & Hreq & _ & _ & Hkeys).
  exists req. split_and!; [exact Hreq | |].
  - apply (Hkeys 0). simpl. lia.
  - apply (Hkeys 1). simpl. lia.
Defined.

(** X14: after a response every row of a returned base URL shows the mask
    of the returned descriptor, or nothing when there is none; the config
    objects are the returned ones, and the allow-list is the returned one
    or, when the response has none, the one held before. *)
Theorem response_sets_display (st : State) (r : OpenAIConfigResponse) (i : nat) :
  i < length (res_OPENAI_API_BASE_URLS r) ->
  let st' := updateOpenAIHandler_resume (Some r) st in
  maskedKeyProp st' i =
    default "" (masked <$> mjoin (default [] (res_OPENAI_API_KEYS r) !! i)) ∧
  OPENAI_API_CONFIGS st' = res_OPENAI_API_CONFIGS r ∧
  allowedOpenAIBaseUrls st' =
    default (allowedOpenAIBaseUrls st) (res_OPENAI_ALLOWED_BASE_URLS r).
Proof.
  intros Hi st'.
  destruct (resume_lists r st) as (s & Hres & _ & Hurls & Hcfg & _ & _ & Hmeta & Hallowed).
  subst st'. rewrite Hres, ensure_configs, Hcfg.
  split_and!; [| done | exact Hallowed].
  rewrite maskedKeyProp_ensure by (by rewrite Hurls).
  unfold maskedKeyProp. by rewrite Hmeta.
Qed.

Lemma response_sets_display_witness :
  0 < length (res_OPENAI_API_BASE_URLS exampleResponse) ∧
  maskedKeyProp (updateOpenAIHandler_resume (Some exampleResponse) exampleState) 0
    = "****7890".
Proof.
  assert (0 < length (res_OPENAI_API_BASE_URLS exampleResponse)) as Hi by (simpl; lia).
  split; [exact Hi |].
  exact (proj1 (response_sets_display exampleState exampleResponse 0 Hi)).
Defined.

(** X15: adding a connection and deleting it again restores the rows: the
    key inputs and keep-flags are those held before the add, every stored
    row shows its mask and has its config object as before, no config
    object is left at or past the deleted index, and the base URLs are the
    old ones, each having gone through two saves. *)
Theorem add_then_delete_restores (st : State) (enable : bool) (connection : Connection) :
  ENABLE_OPENAI_API st = Some enable ->
  aligned st ->
  let n := length (OPENAI_API_BASE_URLS st) in
  let added := fst (addOpenAIConnectionHandler connection st) in
  let st' := fst (onDelete_OpenAIConnection n added) in
  OPENAI_API_BASE_URLS st' =
    JS.replace_trailing_slash <$> (JS.replace_trailing_slash <$> OPENAI_API_BASE_URLS st) ∧
  OPENAI_API_KEYS st' = OPENAI_API_KEYS st ∧
  OPENAI_API_KEY_KEEP st' = OPENAI_API_KEY_KEEP st ∧
  (∀ j, j < n -> maskedKeyProp st' j = maskedKeyProp st j) ∧
  (∀ j, j < n -> OPENAI_API_CONFIGS st' !! j = OPENAI_API_CONFIGS st !! j) ∧
  (∀ j, n <= j -> OPENAI_API_CONFIGS st' !! j = None).
Proof.
  intros Hen (Hk & Hp & Hm) n added st'.
  destruct (add_lists connection st)
    as (s & Hadd & Hens & Hurls & Hcfg & Hkeys & Hkeep & Hmeta).
  destruct (handler_tail s enable)
    as (req & _ & _ & _ & _ & HU & HC & HK & HP & HM); [by rewrite Hens |].
  assert (ENABLE_OPENAI_API added = Some enable) as Hen1.
  { unfold added. rewrite Hadd, updateOpenAIHandler_enable. by rewrite <- Hen. }
  unfold st', onDelete_OpenAIConnection. unfold added in *. rewrite Hadd in *.
  generalize dependent (fst (updateOpenAIHandler (ensureOpenAIArrayLengths s))).
  intros st1 HU HC HK HP HM Hen1. clear Hadd added st'.
  assert (length (OPENAI_API_BASE_URLS s) = S n) as Hn
    by (rewrite Hurls, length_app; simpl; unfold n; lia).
  rewrite Hn in HK, HP, HM.
  rewrite Hkeys, fit_length_same in HK by (rewrite length_app; simpl; lia).
  rewrite Hkeep, fit_length_same in HP by (rewrite length_app; simpl; lia).
  rewrite Hurls, fmap_app in HU. rewrite Hcfg in HC.
  destruct (delete_lists n st1) as (s2 & Hdel & Hens2 & Hurls2 & Hcfg2 & Hkeys2 & Hkeep2 & Hmeta2).
  destruct (handler_tail s2 enable)
    as (req2 & _ & _ & _ & _ & HU2 & HC2 & HK2 & HP2 & HM2); [by rewrite Hens2 |].
  rewrite Hdel.
  generalize dependent (fst (updateOpenAIHandler (ensureOpenAIArrayLengths s2))).
  intros st2 HU2 HC2 HK2 HP2 HM2. clear Hdel.
  assert (OPENAI_API_BASE_URLS s2 = JS.replace_trailing_slash <$> OPENAI_API_BASE_URLS st)
    as Hurls2'.
  { rewrite Hurls2, HU. apply delete_last. by rewrite length_fmap. }
  assert (length (OPENAI_API_BASE_URLS s2) = n) as Hn2
    by (by rewrite Hurls2', length_fmap).
  rewrite Hn2 in HK2, HP2, HM2.
  assert (OPENAI_API_KEYS s2 = OPENAI_API_KEYS st) as Hkeys2'.
  { rewrite Hkeys2, HK. by apply delete_last. }
  assert (OPENAI_API_KEY_KEEP s2 = OPENAI_API_KEY_KEEP st) as Hkeep2'.
  { rewrite Hkeep2, HP. by apply delete_last. }
  split_and!.
  - by rewrite HU2, Hurls2'.
  - by rewrite HK2, Hkeys2', fit_length_same.
  - by rewrite HP2, Hkeep2', fit_length_same.
  - intros j Hj. rewrite HM2 by done. unfold maskedKeyProp at 1.
    rewrite Hmeta2, list_lookup_delete_lt by done.
    change (default "" (masked <$> mjoin (OPENAI_API_KEY_METADATA st1 !! j)))
      with (maskedKeyProp st1 j).
    rewrite HM by lia. unfold maskedKeyProp. by rewrite Hmeta, lookup_app_l by lia.
  - intros j Hj. rewrite HC2, Hcfg2, lookup_reindexConfigs, HU.
    rewrite length_delete, length_app, length_fmap; simpl;
      [| apply lookup_lt_is_Some_2; rewrite length_app, length_fmap; simpl; fold n; lia].
    fold n. rewrite decide_True by lia. unfold shifted_index.
    rewrite decide_True by done. rewrite HC, lookup_obj_set. fold n.
    by rewrite decide_False by lia.
  - intros j Hj. rewrite HC2, Hcfg2, lookup_reindexConfigs, HU.
    rewrite length_delete, length_app, length_fmap; simpl;
      [| apply lookup_lt_is_Some_2; rewrite length_app, length_fmap; simpl; fold n; lia].
    fold n. by rewrite decide_False by lia.
Qed.

Lemma add_then_delete_restores_witness :
  ENABLE_OPENAI_API exampleThree = Some true ∧
  aligned exampleThree ∧
  OPENAI_API_KEYS
    (fst (onDelete_OpenAIConnection 3
            (fst (addOpenAIConnectionHandler exampleConnection exampleThree))))
    = OPENAI_API_KEYS exampleThree.
Proof.
  assert (aligned exampleThree) as Hal by (repeat split).
  split_and!; [reflexivity | exact Hal |].
  exact (proj1 (proj2 (add_then_delete_restores exampleThree true exampleConnection
                         eq_refl Hal))).
Defined.

(** ** Loading the configs *)

Section more_mount.

Implicit Types st : State.
Implicit Types configs : Configs.

Lemma lookup_legacyConfigStep named configs k u i :
  legacyConfigStep named configs (k, u) !! i =
    if decide (i = k) then
      Some (default (default ∅ (config_named configs named u)) (configs !! k))
    else configs !! i.
Proof.
  unfold legacyConfigStep. cbn [fst snd].
  destruct (configs !! k) as [c|] eqn:Hk.
  - case_decide; [by subst | done].
  - case_decide; [subst; by rewrite lookup_insert_eq | by rewrite lookup_insert_ne].
Qed.

Lemma legacyConfigs_snoc named urls u configs :
  legacyConfigs named (urls ++ [u]) configs =
    legacyConfigStep named (legacyConfigs named urls configs) (length urls, u).
Proof.
  unfold legacyConfigs. rewrite imap_app, foldl_app. simpl.
  by rewrite Nat.add_0_r.
Qed.

(** The loop keeps every config object that is there. *)
Lemma legacyConfigs_keeps named urls configs i c :
  configs !! i = Some c -> legacyConfigs named urls configs !! i = Some c.
Proof.
  intros Hc. induction urls as [|u urls IH] using rev_ind; [done |].
  rewrite legacyConfigs_snoc, lookup_legacyConfigStep.
  case_decide as Hi; [subst; by rewrite IH | done].
Qed.

(** It writes at the indices of the base URLs only. *)
Lemma legacyConfigs_outside named urls configs i :
  length urls <= i -> legacyConfigs named urls configs !! i = configs !! i.
Proof.
  induction urls as [|u urls IH] using rev_ind; [done |].
  rewrite length_app. simpl. intros Hi.
  rewrite legacyConfigs_snoc, lookup_legacyConfigStep.
  rewrite decide_False by lia. apply IH. lia.
Qed.

(** Afterwards every index of a base URL has a config object. *)
Lemma legacyConfigs_fills named urls configs i :
  i < length urls -> is_Some (legacyConfigs named urls configs !! i).
Proof.
  induction urls as [|u urls IH] using rev_ind; [simpl; lia |].
  rewrite length_app. simpl. intros Hi.
  rewrite legacyConfigs_snoc, lookup_legacyConfigStep.
  case_decide; [by eexists | apply IH; lia].
Qed.

(** An index without config object gets the legacy one named by its base
    URL, or an empty one. *)
Lemma legacyConfigs_fallback named urls configs i u :
  urls !! i = Some u ->
  configs !! i = None ->
  index_of_name u = None ->
  legacyConfigs named urls configs !! i = Some (default ∅ (named !! u)).
Proof.
  intros Hu Hnone Hname. revert Hu.
  induction urls as [|v urls IH] using rev_ind; [done |]. intros Hu.
  rewrite legacyConfigs_snoc, lookup_legacyConfigStep.
  destruct (decide (i = length urls)) as [->|Hne].
  - rewrite lookup_app_r, Nat.sub_diag in Hu by lia. injection Hu as ->.
    rewrite legacyConfigs_outside, Hnone by lia. simpl.
    unfold config_named. by rewrite Hname.
  - apply IH. assert (i < length (urls ++ [v])) as Hlt by (by eapply lookup_lt_Some).
    rewrite length_app in Hlt. simpl in Hlt. rewrite lookup_app_l in Hu by lia. done.
Qed.

Lemma onMount_urls o l st :
  OPENAI_API_BASE_URLS (onMount true o l st) = res_OPENAI_API_BASE_URLS (loaded_openai o).
Proof.
  unfold onMount. cbn [ENABLE_OPENAI_API ENABLE_OLLAMA_API set_OLLAMA_API_CONFIGS
    set_OLLAMA_BASE_URLS ensureOpenAIArrayLengths set_allowedOpenAIBaseUrls
    set_openAIKeySecurityMeta set_OPENAI_API_CONFIGS set_OPENAI_API_KEY_KEEP
    set_OPENAI_API_KEYS set_OPENAI_API_KEY_METADATA set_OPENAI_API_BASE_URLS
    set_ENABLE_OLLAMA_API set_ENABLE_OPENAI_API truthy_bool default].
  by destruct (loaded_ENABLE_OPENAI_API o), (loaded_ENABLE_OLLAMA_API l).
Qed.

Lemma onMount_keys o l st :
  OPENAI_API_KEYS (onMount true o l st) =
    fit_length "" (length (res_OPENAI_API_BASE_URLS (loaded_openai o)))
      ((fun _ => "") <$> res_OPENAI_API_BASE_URLS (loaded_openai o)).
Proof.
  unfold onMount. cbn [ENABLE_OPENAI_API ENABLE_OLLAMA_API set_OLLAMA_API_CONFIGS
    set_OLLAMA_BASE_URLS ensureOpenAIArrayLengths set_allowedOpenAIBaseUrls
    set_openAIKeySecurityMeta set_OPENAI_API_CONFIGS set_OPENAI_API_KEY_KEEP
    set_OPENAI_API_KEYS set_OPENAI_API_KEY_METADATA set_OPENAI_API_BASE_URLS
    set_ENABLE_OLLAMA_API set_ENABLE_OPENAI_API truthy_bool default].
  by destruct (loaded_ENABLE_OPENAI_API o), (loaded_ENABLE_OLLAMA_API l).
Qed.

Lemma onMount_keep o l st :
  OPENAI_API_KEY_KEEP (onMount true o l st) =
    fit_length false (length (res_OPENAI_API_BASE_URLS (loaded_openai o)))
      (imap (fun idx _ =>
               has_value_or_false
                 (mjoin ((or_default <$> default [] (res_OPENAI_API_KEYS (loaded_openai o)))
                           !! idx)))
         (res_OPENAI_API_BASE_URLS (loaded_openai o))).
Proof.
  unfold onMount. cbn [ENABLE_OPENAI_API ENABLE_OLLAMA_API set_OLLAMA_API_CONFIGS
    set_OLLAMA_BASE_URLS ensureOpenAIArrayLengths set_allowedOpenAIBaseUrls
    set_openAIKeySecurityMeta set_OPENAI_API_CONFIGS set_OPENAI_API_KEY_KEEP
    set_OPENAI_API_KEYS set_OPENAI_API_KEY_METADATA set_OPENAI_API_BASE_URLS
    set_ENABLE_OLLAMA_API set_ENABLE_OPENAI_API truthy_bool default].
  by destruct (loaded_ENABLE_OPENAI_API o), (loaded_ENABLE_OLLAMA_API l).
Qed.

Lemma onMount_metadata o l st :
  OPENAI_API_KEY_METADATA (onMount true o l st) =
    fit_metadata (length (res_OPENAI_API_BASE_URLS (loaded_openai o)))
      (or_default <$> default [] (res_OPENAI_API_KEYS (loaded_openai o))).
Proof.
  unfold onMount. cbn [ENABLE_OPENAI_API ENABLE_OLLAMA_API set_OLLAMA_API_CONFIGS
    set_OLLAMA_BASE_URLS ensureOpenAIArrayLengths set_allowedOpenAIBaseUrls
    set_openAIKeySecurityMeta set_OPENAI_API_CONFIGS set_OPENAI_API_KEY_KEEP
    set_OPENAI_API_KEYS set_OPENAI_API_KEY_METADATA set_OPENAI_API_BASE_URLS
    set_ENABLE_OLLAMA_API set_ENABLE_OPENAI_API truthy_bool default].
  by destruct (loaded_ENABLE_OPENAI_API o), (loaded_ENABLE_OLLAMA_API l).
Qed.

Lemma onMount_configs o l st :
  OPENAI_API_CONFIGS (onMount true o l st) =
    if loaded_ENABLE_OPENAI_API o then
      legacyConfigs (loaded_OPENAI_named_configs o)
        (res_OPENAI_API_BASE_URLS (loaded_openai o))
        (res_OPENAI_API_CONFIGS (loaded_openai o))
    else res_OPENAI_API_CONFIGS (loaded_openai o).
Proof.
  unfold onMount. cbn [ENABLE_OPENAI_API ENABLE_OLLAMA_API set_OLLAMA_API_CONFIGS
    set_OLLAMA_BASE_URLS ensureOpenAIArrayLengths set_allowedOpenAIBaseUrls
    set_openAIKeySecurityMeta set_OPENAI_API_CONFIGS set_OPENAI_API_KEY_KEEP
    set_OPENAI_API_KEYS set_OPENAI_API_KEY_METADATA set_OPENAI_API_BASE_URLS
    set_ENABLE_OLLAMA_API set_ENABLE_OPENAI_API truthy_bool default].
  by destruct (loaded_ENABLE_OPENAI_API o), (loaded_ENABLE_OLLAMA_API l).
Qed.

Lemma onMount_ollama_configs o l st :
  OLLAMA_BASE_URLS (onMount true o l st) = loaded_OLLAMA_BASE_URLS l ∧
  OLLAMA_API_CONFIGS (onMount true o l st) =
    if loaded_ENABLE_OLLAMA_API l then
      legacyConfigs (loaded_OLLAMA_named_configs l)
        (loaded_OLLAMA_BASE_URLS l) (loaded_OLLAMA_API_CONFIGS l)
    else loaded_OLLAMA_API_CONFIGS l.
Proof.
  unfold onMount. cbn [ENABLE_OPENAI_API ENABLE_OLLAMA_API set_OLLAMA_API_CONFIGS
    set_OLLAMA_BASE_URLS ensureOpenAIArrayLengths set_allowedOpenAIBaseUrls
    set_openAIKeySecurityMeta set_OPENAI_API_CONFIGS set_OPENAI_API_KEY_KEEP
    set_OPENAI_API_KEYS set_OPENAI_API_KEY_METADATA set_OPENAI_API_BASE_URLS
    set_ENABLE_OLLAMA_API set_ENABLE_OPENAI_API truthy_bool default].
  by destruct (loaded_ENABLE_OPENAI_API o), (loaded_ENABLE_OLLAMA_API l).
Qed.

End more_mount.

(** X16: once the configs are loaded for an admin, the four lists are
    equally long, every key input is empty, no descriptor is nullish, and
    each row has the keep-flag and the masked display of the loaded
    descriptor of its index ([false] and nothing when there is none). *)
Theorem mount_fills_rows (o : LoadedOpenAIConfig) (l : LoadedOllamaConfig) (st : State) :
  let st' := onMount true o l st in
  let urls := res_OPENAI_API_BASE_URLS (loaded_openai o) in
  let loaded := default [] (res_OPENAI_API_KEYS (loaded_openai o)) in
  OPENAI_API_BASE_URLS st' = urls ∧
  aligned st' ∧
  Forall (fun typed => typed = "") (OPENAI_API_KEYS st') ∧
  Forall is_Some (OPENAI_API_KEY_METADATA st') ∧
  ∀ i,
    i < length urls ->
    hasStoredKeyProp st' i =
      Some (match loaded !! i with
            | Some (Some descriptor) => has_value descriptor
            | Some None | None => false
            end) ∧
    maskedKeyProp st' i =
      match loaded !! i with
      | Some (Some descriptor) => masked descriptor
      | Some None | None => ""
      end.
Proof.
  intros st' urls loaded.
  pose proof (onMount_urls o l st) as Hurls.
  pose proof (onMount_keys o l st) as Hkeys.
  pose proof (onMount_keep o l st) as Hkeep.
  pose proof (onMount_metadata o l st) as Hmeta.
  fold st' urls loaded in Hurls, Hkeys, Hkeep, Hmeta. clearbody st'.
  split_and!.
  - done.
  - unfold aligned. rewrite Hurls, Hkeys, Hkeep, Hmeta.
    by rewrite !length_fit_length, length_fit_metadata.
  - rewrite Hkeys, fit_length_same by apply length_fmap.
    apply Forall_fmap. by apply Forall_true.
  - rewrite Hmeta. unfold fit_metadata. case_decide as Hcut.
    + apply Forall_take, Forall_fmap, Forall_true. intros item. by eexists.
    + case_decide; apply Forall_fmap, Forall_true; intros item; by eexists.
  - intros i Hi. split.
    + unfold hasStoredKeyProp. rewrite Hkeep, fit_length_same by apply length_imap.
      rewrite list_lookup_imap. destruct (lookup_lt_is_Some_2 urls i Hi) as [u ->].
      simpl. f_equal. rewrite list_lookup_fmap.
      by destruct (loaded !! i) as [[d|]|].
    + unfold maskedKeyProp. rewrite Hmeta.
      pose proof (lookup_fit_metadata (length urls) (or_default <$> loaded) i Hi) as Hd.
      rewrite list_lookup_fmap in Hd.
      destruct (mjoin (fit_metadata _ _ !! i)) as [d1|];
        destruct (loaded !! i) as [[d|]|]; simpl in *; by subst.
Qed.

Lemma mount_fills_rows_witness :
  let st' := onMount true exampleLoadedOpenAI exampleLoadedOllama initialState in
  0 < length (res_OPENAI_API_BASE_URLS (loaded_openai exampleLoadedOpenAI)) ∧
  1 < length (res_OPENAI_API_BASE_URLS (loaded_openai exampleLoadedOpenAI)) ∧
  hasStoredKeyProp st' 0 = Some true ∧
  maskedKeyProp st' 0 = "****7890" ∧
  hasStoredKeyProp st' 1 = Some false ∧
  maskedKeyProp st' 1 = "".
Proof.
  assert (0 < length (res_OPENAI_API_BASE_URLS (loaded_openai exampleLoadedOpenAI)))
    as Hstored by (simpl; lia).
  assert (1 < length (res_OPENAI_API_BASE_URLS (loaded_openai exampleLoadedOpenAI)))
    as Hnull by (simpl; lia).
  destruct (mount_fills_rows exampleLoadedOpenAI exampleLoadedOllama initialState)
    as (_ & _ & _ & _ & Hrows).
  split_and!;
    [exact Hstored | exact Hnull
     | exact (proj1 (Hrows 0 Hstored)) | exact (proj2 (Hrows 0 Hstored))
     | exact (proj1 (Hrows 1 Hnull)) | exact (proj2 (Hrows 1 Hnull))].
Defined.

(** X17: with the OpenAI API switched on, loading gives every base URL a
    config object: the one loaded under its index is kept; an index
    without one gets the legacy config object named by its base URL (a
    base URL that is not itself the numeral of an index), or an empty
    object; nothing is written past the base URLs. With the API switched
    off the loaded object is taken as it is. *)
Theorem mount_fills_configs (o : LoadedOpenAIConfig) (l : LoadedOllamaConfig) (st : State) :
  let st' := onMount true o l st in
  let urls := res_OPENAI_API_BASE_URLS (loaded_openai o) in
  let loaded := res_OPENAI_API_CONFIGS (loaded_openai o) in
  (loaded_ENABLE_OPENAI_API o = true ->
   (∀ i, i < length urls -> is_Some (OPENAI_API_CONFIGS st' !! i)) ∧
   (∀ i c, loaded !! i = Some c -> OPENAI_API_CONFIGS st' !! i = Some c) ∧
   (∀ i u, urls !! i = Some u -> loaded !! i = None -> index_of_name u = None ->
           OPENAI_API_CONFIGS st' !! i =
             Some (default ∅ (loaded_OPENAI_named_configs o !! u))) ∧
   (∀ i, length urls <= i -> OPENAI_API_CONFIGS st' !! i = loaded !! i)) ∧
  (loaded_ENABLE_OPENAI_API o = false -> OPENAI_API_CONFIGS st' = loaded).
Proof.
  intros st' urls loaded. pose proof (onMount_configs o l st) as Hcfg.
  fold st' urls loaded in Hcfg. clearbody st'. split; intros Hen; rewrite Hen in Hcfg.
  - rewrite Hcfg. split_and!.
    + intros i Hi. by apply legacyConfigs_fills.
    + intros i c Hc. by apply legacyConfigs_keeps.
    + intros i u Hu Hnone Hname. by apply legacyConfigs_fallback.
    + intros i Hi. by apply legacyConfigs_outside.
  - done.
Qed.

Lemma mount_fills_configs_witness :
  loaded_ENABLE_OPENAI_API exampleLoadedOpenAI = true ∧
  OPENAI_API_CONFIGS (onMount true exampleLoadedOpenAI exampleLoadedOllama initialState) !! 1
    = Some {["prefix_id" := JStr "legacy"]}.
Proof.
  split; [reflexivity |].
  destruct (proj1 (mount_fills_configs exampleLoadedOpenAI exampleLoadedOllama initialState)
              eq_refl) as (_ & _ & Hlegacy & _).
  rewrite (Hlegacy 1 "https://example.org/v1"); [| reflexivity | reflexivity | reflexivity].
  vm_compute. reflexivity.
Defined.

(** ** The form's submit and the Ollama rows *)

(** X18: the two update handlers of a submit do not interfere: each sends
    the request it would send on its own, and the state is the same in
    whichever order they run. *)
Theorem submit_handlers_independent (st : State) :
  snd (fst (submitHandler st)) = snd (updateOpenAIHandler st) ∧
  snd (submitHandler st) = snd (updateOllamaHandler st) ∧
  fst (fst (submitHandler st)) = fst (updateOpenAIHandler (fst (updateOllamaHandler st))).
Proof.
  unfold submitHandler, updateOpenAIHandler, updateOllamaHandler.
  destruct st as [ollamaUrls ollamaConfigs keys keep meta urls configs sec allowed eo el].
  cbn [ENABLE_OPENAI_API ENABLE_OLLAMA_API].
  destruct eo as [eo|], el as [el|]; cbn [fst snd]; by split_and!.
Qed.

(** X19: adding an Ollama connection sends the old base URLs and the new
    one, each without trailing slash, keeps the config object of every
    other index, and touches none of the OpenAI lists. *)
Theorem ollama_add_appends (st : State) (enable : bool) (connection : Connection) :
  ENABLE_OLLAMA_API st = Some enable ->
  let n := length (OLLAMA_BASE_URLS st) in
  let out := addOllamaConnectionHandler connection st in
  ∃ req,
    snd out = Some req ∧
    req_OLLAMA_BASE_URLS req =
      (JS.replace_trailing_slash <$> OLLAMA_BASE_URLS st)
        ++ [JS.replace_trailing_slash (url connection)] ∧
    OLLAMA_BASE_URLS (fst out) = req_OLLAMA_BASE_URLS req ∧
    req_OLLAMA_API_CONFIGS req = OLLAMA_API_CONFIGS (fst out) ∧
    (∀ j, j ≠ n -> OLLAMA_API_CONFIGS (fst out) !! j = OLLAMA_API_CONFIGS st !! j) ∧
    OPENAI_API_BASE_URLS (fst out) = OPENAI_API_BASE_URLS st ∧
    OPENAI_API_KEYS (fst out) = OPENAI_API_KEYS st ∧
    OPENAI_API_KEY_KEEP (fst out) = OPENAI_API_KEY_KEEP st ∧
    OPENAI_API_KEY_METADATA (fst out) = OPENAI_API_KEY_METADATA st ∧
    OPENAI_API_CONFIGS (fst out) = OPENAI_API_CONFIGS st.
Proof.
  intros Hen n out. subst out. unfold addOllamaConnectionHandler, updateOllamaHandler.
  cbn [ENABLE_OLLAMA_API set_OLLAMA_API_CONFIGS set_OLLAMA_BASE_URLS].
  rewrite Hen. eexists. split; [reflexivity |].
  cbn [fst snd req_OLLAMA_BASE_URLS req_OLLAMA_API_CONFIGS OLLAMA_BASE_URLS
       OLLAMA_API_CONFIGS set_OLLAMA_BASE_URLS set_OLLAMA_API_CONFIGS].
  split_and!; try reflexivity.
  - by rewrite fmap_app.
  - intros j Hj. rewrite lookup_obj_set, decide_False; [done |].
    rewrite length_app. simpl. fold n. lia.
Qed.

Lemma ollama_add_appends_witness :
  ENABLE_OLLAMA_API exampleThree = Some true ∧
  ∃ req,
    snd (addOllamaConnectionHandler exampleConnection exampleThree) = Some req ∧
    req_OLLAMA_BASE_URLS req =
      ["http://localhost:11434"; "http://gpu-box:11434"; "https://api.openai.com/v1"].
Proof.
  split; [reflexivity |].
  destruct (ollama_add_appends exampleThree true exampleConnection eq_refl)
    as (req & Hreq & Hurls & _).
  exists req. split; [exact Hreq | exact Hurls].
Defined.
